(** * Verification of the identity-application backend ([backend/app.py])

    The development embeds the single HTTP handler [submit_app], its helper
    [validate_format], the table [FIELD_NAMES] and the rate-limiter
    configuration of [backend/app.py], together with the parts of the Python
    runtime and of the libraries the handler calls ([re], [datetime], Flask's
    [get_json], the [requests] exception hierarchy, Flask-Limiter's
    fixed-window counters).  Definitions come first, theorems after. *)

From Stdlib Require Import ZArith NArith QArith List String Ascii Bool Lia.
From stdpp Require Import base option list gmap.
Import ListNotations.
Local Open Scope Z_scope.

(** ** Python strings *)

(** A Python [str] is a sequence of Unicode code points. *)
Definition cp := N.
Definition str := list cp.

(** An ASCII literal of the source, as a [str]. *)
Definition lit (s : string) : str :=
  map (fun a => N_of_ascii a) (list_ascii_of_string s).

Definition str_eqb (a b : str) : bool := bool_decide (a = b).

(** [a in b] on two strings: substring test. *)
Fixpoint starts_with (p s : str) : bool :=
  match p, s with
  | [], _ => true
  | x :: p', y :: s' => N.eqb x y && starts_with p' s'
  | _ :: _, [] => false
  end.

Fixpoint is_substring (p s : str) : bool :=
  starts_with p s ||
  match s with
  | [] => false
  | _ :: s' => is_substring p s'
  end.

(** The interpreter's Unicode database, as far as the handler consults it:
    [Py_UNICODE_TODECIMAL] (the value of a character of category Nd, which is
    what [\d] and [int()] use) and [Py_UNICODE_ISSPACE] (what [\s] uses).  The
    tables change between Python releases; they always agree on ASCII. *)
Class UnicodeDB := {
  to_decimal : cp -> option N;
  is_space : cp -> bool
}.

Definition is_decimal `{UnicodeDB} (c : cp) : bool :=
  match to_decimal c with Some _ => true | None => false end.

Definition ascii_decimal (c : cp) : option N :=
  if (48 <=? c)%N && (c <=? 57)%N then Some (c - 48)%N else None.

Definition ascii_space (c : cp) : bool :=
  ((9 <=? c)%N && (c <=? 13)%N) || ((28 <=? c)%N && (c <=? 32)%N).

(** What every release guarantees about the tables. *)
Definition ascii_compatible (U : UnicodeDB) : Prop :=
  forall c : cp, (c < 128)%N ->
    to_decimal c = ascii_decimal c /\ is_space c = ascii_space c.

(** Runs of ten consecutive decimal digits (first code point of each run), as
    in Unicode 15 (CPython 3.12). *)
Definition decimal_runs : list N :=
  [0x0030; 0x0660; 0x06F0; 0x07C0; 0x0966; 0x09E6; 0x0A66; 0x0AE6; 0x0B66;
   0x0BE6; 0x0C66; 0x0CE6; 0x0D66; 0x0DE6; 0x0E50; 0x0ED0; 0x0F20; 0x1040;
   0x1090; 0x17E0; 0x1810; 0x1946; 0x19D0; 0x1A80; 0x1A90; 0x1B50; 0x1BB0;
   0x1C40; 0x1C50; 0xA620; 0xA8D0; 0xA900; 0xA9D0; 0xA9F0; 0xAA50; 0xABF0;
   0xFF10; 0x104A0; 0x10D30; 0x11066; 0x110F0; 0x11136; 0x111D0; 0x112F0;
   0x11450; 0x114D0; 0x11650; 0x116C0; 0x11730; 0x118E0; 0x11950; 0x11C50;
   0x11D50; 0x11DA0; 0x11F50; 0x16A60; 0x16AC0; 0x16B50; 0x1D7CE; 0x1D7D8;
   0x1D7E2; 0x1D7EC; 0x1D7F6; 0x1E140; 0x1E2F0; 0x1E4F0; 0x1E950;
   0x1FBF0]%N.

Definition whitespace_points : list N :=
  [0x09; 0x0A; 0x0B; 0x0C; 0x0D; 0x1C; 0x1D; 0x1E; 0x1F; 0x20; 0x85; 0xA0;
   0x1680; 0x2000; 0x2001; 0x2002; 0x2003; 0x2004; 0x2005; 0x2006; 0x2007;
   0x2008; 0x2009; 0x200A; 0x2028; 0x2029; 0x202F; 0x205F; 0x3000]%N.

Definition run_decimal (c : cp) : option N :=
  match List.find (fun lo => (lo <=? c)%N && (c <? lo + 10)%N) decimal_runs with
  | Some lo => Some (c - lo)%N
  | None => None
  end.

#[export] Instance cpython_ucd : UnicodeDB := {|
  to_decimal := run_decimal;
  is_space := fun c => existsb (N.eqb c) whitespace_points
|}.

(** ** Regular expressions ([re]) *)

(** Character sets: a literal, a range inside brackets, [\d], [\s], a negated
    set ([\D], [[^...]]) and a union of sets inside brackets. *)
Inductive charset :=
| CLit (c : cp)
| CRange (lo hi : cp)
| CDigit
| CSpace
| CNot (c : charset)
| COr (a b : charset).
Arguments CLit c%_N.
Arguments CRange (lo hi)%_N.

Fixpoint in_set `{UnicodeDB} (c : charset) (x : cp) : bool :=
  match c with
  | CLit y => N.eqb x y
  | CRange lo hi => (lo <=? x)%N && (x <=? hi)%N
  | CDigit => is_decimal x
  | CSpace => is_space x
  | CNot c' => negb (in_set c' x)
  | COr a b => in_set a x || in_set b x
  end.

(** The fragment of the pattern language the source uses: one character of a
    set, the anchors [^] and [$], concatenation, alternation, and a set
    repeated between [lo] and [hi] times ([{n}] is [Rep c n (Some n)], [+] is
    [Rep c 1 None]). *)
Inductive regex :=
| Chars (c : charset)
| Bol
| Eol
| Seq (r1 r2 : regex)
| Alt (r1 r2 : regex)
| Rep (c : charset) (lo : nat) (hi : option nat).

Declare Scope regex_scope.
Delimit Scope regex_scope with re.
Infix "⋅" := Seq (at level 41, right associativity) : regex_scope.

(** Every remainder of [s] after a run of [k] leading characters of the set,
    [lo <= k <= hi]. *)
Fixpoint rep_ends (p : cp -> bool) (lo : nat) (hi : option nat) (s : str)
  : list str :=
  (match lo with O => [s] | S _ => [] end) ++
  match s with
  | x :: t =>
      match hi with
      | Some O => []
      | _ => if p x then rep_ends p (Nat.pred lo) (Nat.pred <$> hi) t else []
      end
  | [] => []
  end.

(** [ends r n s]: the remainders the backtracking matcher can reach when it
    matches [r] at a position where [s] is what is left of a subject of
    length [n].  [^] holds at the start of the subject only (no MULTILINE);
    [$] holds at the end of the subject and just before a newline that ends
    the subject. *)
Fixpoint ends `{UnicodeDB} (r : regex) (n : nat) (s : str) : list str :=
  match r with
  | Chars c =>
      match s with
      | x :: t => if in_set c x then [t] else []
      | [] => []
      end
  | Bol => if Nat.eqb (length s) n then [s] else []
  | Eol =>
      match s with
      | [] => [s]
      | [c] => if N.eqb c 10 then [s] else []
      | _ => []
      end
  | Seq r1 r2 => flat_map (ends r2 n) (ends r1 n s)
  | Alt r1 r2 => ends r1 n s ++ ends r2 n s
  | Rep c lo hi => rep_ends (in_set c) lo hi s
  end.

(** [re.match(pattern, s)] as a truth value: some match starts at position 0. *)
Definition re_match `{UnicodeDB} (r : regex) (s : str) : bool :=
  match ends r (length s) s with
  | [] => false
  | _ :: _ => true
  end.

(** [re.sub(pattern, '', s)] for a pattern that is one character set: every
    character of the set is removed. *)
Definition re_sub_empty `{UnicodeDB} (c : charset) (s : str) : str :=
  List.filter (fun x => negb (in_set c x)) s.

(** ** JSON values and the Python operations on them *)

(** What [json.loads] produces.  A dict is kept as its list of bindings, in
    insertion order, each key once. *)
#[warnings="-register-all"]
Inductive json :=
| JNull
| JBool (b : bool)
| JInt (z : Z)
| JFloat (q : Q)
| JStr (s : str)
| JArr (l : list json)
| JObj (kv : list (str * json)).

(** Truth value of an object: [None], [False], zero, and the empty string,
    list and dict are false. *)
Definition truthy (v : json) : bool :=
  match v with
  | JNull => false
  | JBool b => b
  | JInt z => negb (Z.eqb z 0)
  | JFloat q => negb (Z.eqb (Qnum q) 0)
  | JStr s => match s with [] => false | _ => true end
  | JArr l => match l with [] => false | _ => true end
  | JObj kv => match kv with [] => false | _ => true end
  end.

Fixpoint dict_get (kv : list (str * json)) (k : str) : option json :=
  match kv with
  | [] => None
  | (k', v) :: rest => if str_eqb k' k then Some v else dict_get rest k
  end.

(** [x == k] for a JSON value [x] and a string [k]. *)
Definition eq_str (x : json) (k : str) : bool :=
  match x with
  | JStr s => str_eqb s k
  | _ => false
  end.

(** ** Exceptions *)

(** The exception classes that can reach the handler's [except] clauses:
    builtins, werkzeug's HTTP exceptions raised by [get_json], and the
    [requests.exceptions] hierarchy. *)
Inductive exn :=
| Exception
| TypeError | KeyError | AttributeError | ValueError
| HTTPException | BadRequest | UnsupportedMediaType
| RequestException
| InvalidJSONError | JSONDecodeError
| ConnectionError | ProxyError | SSLError
| Timeout | ConnectTimeout | ReadTimeout
| TooManyRedirects | ChunkedEncodingError.

#[export] Instance exn_eq_dec : EqDecision exn.
Proof. solve_decision. Defined.

(** Direct base classes, as the libraries declare them:
    [class ConnectTimeout(ConnectionError, Timeout)],
    [class ReadTimeout(Timeout)],
    [class JSONDecodeError(InvalidJSONError, json.JSONDecodeError)] where
    [json.JSONDecodeError] derives from [ValueError], and so on. *)
Definition bases (e : exn) : list exn :=
  match e with
  | Exception => []
  | TypeError | AttributeError | ValueError | HTTPException
  | RequestException => [Exception]
  | KeyError => [Exception]
  | BadRequest | UnsupportedMediaType => [HTTPException]
  | InvalidJSONError => [RequestException]
  | JSONDecodeError => [InvalidJSONError; ValueError]
  | ConnectionError | Timeout | TooManyRedirects
  | ChunkedEncodingError => [RequestException]
  | ProxyError | SSLError => [ConnectionError]
  | ConnectTimeout => [ConnectionError; Timeout]
  | ReadTimeout => [Timeout]
  end.

Fixpoint subclass_upto (depth : nat) (e c : exn) : bool :=
  bool_decide (e = c) ||
  match depth with
  | O => false
  | S d => existsb (fun b => subclass_upto d b c) (bases e)
  end.

(** [isinstance(e, c)]; no class of the table is more than four steps below
    [Exception]. *)
Definition isinstance (e c : exn) : bool := subclass_upto 4 e c.

(** ** Responses, the outside world and control flow *)

(** What a view function returns: [(jsonify(body), status)]. *)
Record Response := mkResponse { status : Z; body : json }.

(** [jsonify({"error": msg})]. *)
Definition error_body (msg : str) : json := JObj [(lit "error", JStr msg)].

(** What the provider does with one POST: it answers with a status code and
    a body ([None] when the body is not JSON), or the call raises. *)
Inductive reply :=
| Answer (status_code : Z) (payload : option json)
| Fails (e : exn).

(** The world as the handler changes it: the payloads POSTed to the provider
    so far, oldest first. *)
Record world := mkWorld { sent : list json }.

(** A statement either falls through with a value, leaves the enclosing
    function with [return r], or raises. *)
Inductive outcome (R A : Type) :=
| Next (a : A)
| Return (r : R)
| Raise (e : exn).
Arguments Next {R A} a.
Arguments Return {R A} r.
Arguments Raise {R A} e.

(** Statements of a function whose [return] carries an [R]. *)
Definition M (R A : Type) : Type := world -> outcome R A * world.

Definition ret {R A} (a : A) : M R A := fun w => (Next a, w).
Definition return_ {R A} (r : R) : M R A := fun w => (Return r, w).
Definition raise {R A} (e : exn) : M R A := fun w => (Raise e, w).

Definition bind {R A B} (m : M R A) (k : A -> M R B) : M R B :=
  fun w =>
    match m w with
    | (Next a, w') => k a w'
    | (Return r, w') => (Return r, w')
    | (Raise e, w') => (Raise e, w')
    end.

Declare Scope py_scope.
Delimit Scope py_scope with py.
Notation "x <- m ;; k" := (bind m (fun x => k))
  (at level 100, m at next level, right associativity) : py_scope.
Notation "m ;; k" := (bind m (fun _ => k))
  (at level 100, right associativity) : py_scope.
Local Open Scope py_scope.

(** Calling a function whose body is [f]: its [return] value is the value of
    the call, an exception passes through.  A body of type [M R Empty_set]
    cannot fall off its end: its last statement is a [return]. *)
Definition call {R R'} (f : M R Empty_set) : M R' R :=
  fun w =>
    match f w with
    | (Return r, w') => (Next r, w')
    | (Raise e, w') => (Raise e, w')
    | (Next x, _) => match x with end
    end.

(** [if c: body] with no [else]. *)
Definition when {R} (c : bool) (m : M R unit) : M R unit :=
  if c then m else ret tt.

(** [for x in l: body x]. *)
Fixpoint for_each {R A} (l : list A) (f : A -> M R unit) : M R unit :=
  match l with
  | [] => ret tt
  | x :: rest => f x ;; for_each rest f
  end.

(** [k in data]: key membership for a dict, element membership for a list,
    substring for a string, [TypeError] for anything else. *)
Definition contains {R} (data : json) (k : str) : M R bool :=
  match data with
  | JObj kv => ret (match dict_get kv k with Some _ => true | None => false end)
  | JArr l => ret (existsb (fun x => eq_str x k) l)
  | JStr s => ret (is_substring k s)
  | _ => raise TypeError
  end.

(** [data[k]] for a string [k]: the value or [KeyError] for a dict,
    [TypeError] for anything else. *)
Definition getitem {R} (data : json) (k : str) : M R json :=
  match data with
  | JObj kv =>
      match dict_get kv k with
      | Some v => ret v
      | None => raise KeyError
      end
  | _ => raise TypeError
  end.

(** [data.get(k)]: [None] when the key is missing; only a dict has the
    method. *)
Definition get_method {R} (data : json) (k : str) : M R json :=
  match data with
  | JObj kv => ret (match dict_get kv k with Some v => v | None => JNull end)
  | _ => raise AttributeError
  end.

(** [re.match(pattern, v)] and [re.sub(pattern, '', v)] raise [TypeError]
    when [v] is not a string. *)
Definition py_re_match `{UnicodeDB} {R} (r : regex) (v : json) : M R bool :=
  match v with
  | JStr s => ret (re_match r s)
  | _ => raise TypeError
  end.

Definition py_re_sub_empty `{UnicodeDB} {R} (c : charset) (v : json)
  : M R str :=
  match v with
  | JStr s => ret (re_sub_empty c s)
  | _ => raise TypeError
  end.

(** ** Dates ([datetime]) *)

Record date := mkDate { year : Z; month : Z; day : Z }.

Definition is_leap (y : Z) : bool :=
  (y mod 4 =? 0) && (negb (y mod 100 =? 0) || (y mod 400 =? 0)).

Definition days_in_month (y m : Z) : Z :=
  if (m =? 2) then (if is_leap y then 29 else 28)
  else if (m =? 4) || (m =? 6) || (m =? 9) || (m =? 11) then 30
  else 31.

(** The constructor [date(y, m, d)] raises [ValueError] unless this holds
    ([MINYEAR] is 1 and [MAXYEAR] is 9999). *)
Definition valid_date (y m d : Z) : bool :=
  (1 <=? y) && (y <=? 9999) && (1 <=? m) && (m <=? 12) &&
  (1 <=? d) && (d <=? days_in_month y m).

(** One character of an ASCII digit range [[lo-hi]], with its value. *)
Definition ascii_digit (lo hi : N) (s : str) : list (Z * str) :=
  match s with
  | c :: t =>
      if (48 + lo <=? c)%N && (c <=? 48 + hi)%N
      then [(Z.of_N (c - 48), t)] else []
  | [] => []
  end.

(** One character matched by [\d], with its decimal value. *)
Definition any_decimal `{UnicodeDB} (s : str) : list (Z * str) :=
  match s with
  | c :: t =>
      match to_decimal c with
      | Some v => [(Z.of_N v, t)]
      | None => []
      end
  | [] => []
  end.

Definition expect (c : N) (s : str) : list str :=
  match s with
  | x :: t => if N.eqb x c then [t] else []
  | [] => []
  end.

(** Two digits in a row, read as a number. *)
Definition two (a b : str -> list (Z * str)) (s : str) : list (Z * str) :=
  flat_map (fun '(x, s1) => map (fun '(y, s2) => (10 * x + y, s2)) (b s1))
           (a s).

(** The groups of the pattern [_strptime] compiles the format ['%Y-%m-%d']
    to, alternatives in the order the matcher tries them:
    [(?P<Y>\d\d\d\d)], [(?P<m>1[0-2]|0[1-9]|[1-9])] and
    [(?P<d>3[0-1]|[1-2]\d|0[1-9]|[1-9]| [1-9])]. *)
Definition group_Y `{UnicodeDB} (s : str) : list (Z * str) :=
  flat_map (fun '(hi, s1) => map (fun '(lo, s2) => (100 * hi + lo, s2))
                                 (two any_decimal any_decimal s1))
           (two any_decimal any_decimal s).

Definition group_m (s : str) : list (Z * str) :=
  two (ascii_digit 1 1) (ascii_digit 0 2) s ++
  two (ascii_digit 0 0) (ascii_digit 1 9) s ++
  ascii_digit 1 9 s.

Definition group_d `{UnicodeDB} (s : str) : list (Z * str) :=
  two (ascii_digit 3 3) (ascii_digit 0 1) s ++
  two (ascii_digit 1 2) any_decimal s ++
  two (ascii_digit 0 0) (ascii_digit 1 9) s ++
  ascii_digit 1 9 s ++
  flat_map (ascii_digit 1 9) (expect 32%N s).

(** Every way the compiled pattern matches a prefix of [s], first match
    first: the three numbers and what is left of [s]. *)
Definition strptime_matches `{UnicodeDB} (s : str) : list (date * str) :=
  flat_map (fun '(y, s1) =>
    flat_map (fun s2 =>
      flat_map (fun '(m, s3) =>
        flat_map (fun s4 =>
          map (fun '(d, s5) => (mkDate y m d, s5)) (group_d s4))
          (expect 45%N s3))
        (group_m s2))
      (expect 45%N s1))
    (group_Y s).

(** [datetime.strptime(s, '%Y-%m-%d')] as a date: [ValueError] when the
    pattern does not match, when the match leaves unconverted data, and when
    the numbers are not a calendar date. *)
Definition strptime_Ymd `{UnicodeDB} (s : str) : option date :=
  match strptime_matches s with
  | (d, []) :: _ =>
      if valid_date (year d) (month d) (day d) then Some d else None
  | _ => None
  end.

Definition py_strptime `{UnicodeDB} {R} (v : json) : M R date :=
  match v with
  | JStr s =>
      match strptime_Ymd s with
      | Some d => ret d
      | None => raise ValueError
      end
  | _ => raise TypeError
  end.

(** [(a, b) < (c, d)] on pairs of integers. *)
Definition pair_lt (a b c d : Z) : bool := (a <? c) || ((a =? c) && (b <? d)).

(** ** The application ([backend/app.py]) *)

(** The body of a POST as Flask sees it. *)
Inductive payload :=
| NotJson            (* no body, or a Content-Type that is not JSON *)
| Malformed          (* JSON Content-Type, body that does not parse *)
| Parsed (v : json).

Record request := mkRequest { remote_addr : str; content : payload }.

(** [request.get_json()]: raises werkzeug's [UnsupportedMediaType] (415)
    when the content type is not JSON and [BadRequest] (400) when the body
    does not parse.  (Flask before 2.1 returns [None] in the first case:
    that is [Parsed JNull] here.) *)
Definition get_json {R} (req : request) : M R json :=
  match content req with
  | NotJson => raise UnsupportedMediaType
  | Malformed => raise BadRequest
  | Parsed v => ret v
  end.

(** What one request sees of its surroundings: the clock
    ([datetime.today()]) and the provider behind [requests.post]. *)
Record env := mkEnv { today : date; alloy : json -> reply }.

(** [requests.post(url, json=data, auth=..., timeout=30)]: one POST. *)
Definition requests_post {R} (E : env) (data : json) : M R (Z * option json) :=
  fun w =>
    let w' := mkWorld (sent w ++ [data]) in
    match alloy E data with
    | Answer code p => (Next (code, p), w')
    | Fails e => (Raise e, w')
    end.

(** [response.json()]. *)
Definition response_json {R} (p : option json) : M R json :=
  match p with
  | Some j => ret j
  | None => raise JSONDecodeError
  end.

Definition FIELD_NAMES : list (str * str) :=
  [ (lit "name_first", lit "First Name");
    (lit "name_last", lit "Last Name");
    (lit "email_address", lit "Email Address");
    (lit "phone_number", lit "Phone Number");
    (lit "address_line_1", lit "Address Line 1");
    (lit "address_line_2", lit "Address Line 2");
    (lit "address_city", lit "City");
    (lit "address_state", lit "State");
    (lit "address_postal_code", lit "Postal Code");
    (lit "address_country_code", lit "Country");
    (lit "document_ssn", lit "Social Security Number");
    (lit "birth_date", lit "Date of Birth") ].

(** [FIELD_NAMES.get(field, field)]. *)
Fixpoint names_get (names : list (str * str)) (k dflt : str) : str :=
  match names with
  | [] => dflt
  | (k', v) :: rest => if str_eqb k' k then v else names_get rest k dflt
  end.

(** The patterns of the source. *)
Definition digits (n : nat) : regex := Rep CDigit n (Some n).

(** [^\d{9}$] *)
Definition ssn_pattern : regex := (Bol ⋅ digits 9 ⋅ Eol)%re.
(** [^\d{4}-\d{2}-\d{2}$] *)
Definition birth_pattern : regex :=
  (Bol ⋅ digits 4 ⋅ Chars (CLit 45) ⋅ digits 2 ⋅ Chars (CLit 45) ⋅ digits 2
   ⋅ Eol)%re.
(** [^[A-Z]{2}$] *)
Definition state_pattern : regex :=
  (Bol ⋅ Rep (CRange 65 90) 2 (Some 2%nat) ⋅ Eol)%re.
(** [^\d{5}$] *)
Definition postal_pattern : regex := (Bol ⋅ digits 5 ⋅ Eol)%re.
(** [[^\s@]] *)
Definition not_space_at : charset := CNot (COr CSpace (CLit 64)).
(** [^[^\s@]+@[^\s@]+\.[^\s@]+$] *)
Definition email_pattern : regex :=
  (Bol ⋅ Rep not_space_at 1 None ⋅ Chars (CLit 64) ⋅ Rep not_space_at 1 None
   ⋅ Chars (CLit 46) ⋅ Rep not_space_at 1 None ⋅ Eol)%re.

Section App.
Context `{U : UnicodeDB}.

(** [validate_format(data)]: a pair [(is_valid, error_message)]. *)
Definition validate_format (data : json) : M (bool * option str) Empty_set :=
  has <- contains data (lit "document_ssn") ;;
  when has (
    v <- getitem data (lit "document_ssn") ;;
    m <- py_re_match ssn_pattern v ;;
    when (negb m)
      (return_ (false, Some (lit "SSN must be exactly 9 digits with no dashes")))) ;;
  has <- contains data (lit "birth_date") ;;
  when has (
    v <- getitem data (lit "birth_date") ;;
    m <- py_re_match birth_pattern v ;;
    when (negb m)
      (return_ (false, Some (lit "Date of Birth must be in YYYY-MM-DD format")))) ;;
  has <- contains data (lit "address_state") ;;
  when has (
    v <- getitem data (lit "address_state") ;;
    m <- py_re_match state_pattern v ;;
    when (negb m)
      (return_ (false, Some (lit "State must be a 2-letter code (e.g., NY, CA)")))) ;;
  has <- contains data (lit "address_country_code") ;;
  ne <- (if has
         then v <- getitem data (lit "address_country_code") ;;
              ret (negb (eq_str v (lit "US")))
         else ret false) ;;
  when ne (return_ (false, Some (lit "Country must be 'US'"))) ;;
  return_ (true, None).

Definition required_fields : list str :=
  [ lit "name_first"; lit "name_last"; lit "email_address";
    lit "phone_number"; lit "address_line_1"; lit "address_city";
    lit "address_state"; lit "address_postal_code";
    lit "address_country_code"; lit "document_ssn"; lit "birth_date" ].

(** [jsonify({"error": msg}), code]. *)
Definition error (code : Z) (msg : str) : Response :=
  mkResponse code (error_body msg).

(** The [try] block of [submit_app]. *)
Definition submit_try (E : env) (req : request) : M Response Empty_set :=
  data <- get_json req ;;
  for_each required_fields (fun field =>
    has <- contains data field ;;
    missing <- (if negb has then ret true
                else v <- getitem data field ;; ret (negb (truthy v))) ;;
    when missing (
      let clean_name := names_get FIELD_NAMES field field in
      return_ (error 400 (lit "Missing required field: " ++ clean_name)))) ;;
  has <- contains data (lit "email_address") ;;
  when has (
    v <- getitem data (lit "email_address") ;;
    m <- py_re_match email_pattern v ;;
    when (negb m) (return_ (error 400 (lit "Invalid email format")))) ;;
  has <- contains data (lit "phone_number") ;;
  when has (
    v <- getitem data (lit "phone_number") ;;
    phone_clean <- py_re_sub_empty (CNot CDigit) v ;;
    when (negb (Nat.eqb (length phone_clean) 10))
      (return_ (error 400 (lit "Phone number must be 10 digits")))) ;;
  has <- contains data (lit "birth_date") ;;
  when has (
    v <- getitem data (lit "birth_date") ;;
    birth <- py_strptime v ;;
    let today := today E in
    let age := year today - year birth
               - Z.b2z (pair_lt (month today) (day today)
                                (month birth) (day birth)) in
    when (age <? 18)
      (return_ (error 400 (lit "Must be at least 18 years old")))) ;;
  has <- contains data (lit "address_postal_code") ;;
  when has (
    v <- getitem data (lit "address_postal_code") ;;
    m <- py_re_match postal_pattern v ;;
    when (negb m) (return_ (error 400 (lit "Postal code must be 5 digits")))) ;;
  result <- call (validate_format data) ;;
  let '(is_valid, error_message) := result in
  when (negb is_valid)
    (return_ (mkResponse 400
       (JObj [(lit "error",
               match error_message with Some m => JStr m | None => JNull end)]))) ;;
  response <- requests_post E data ;;
  let '(status_code, text) := response in
  when (negb (status_code =? 201))
    (return_ (error status_code (lit "Alloy API error"))) ;;
  alloy_response <- response_json text ;;
  summary <- getitem alloy_response (lit "summary") ;;
  outcome <- getitem summary (lit "outcome") ;;
  token <- get_method alloy_response (lit "evaluation_token") ;;
  return_ (mkResponse 200
    (JObj [(lit "outcome", outcome); (lit "evaluation_token", token)])).

(** The [except] clauses, tried in the order they are written; the last one,
    [except Exception], catches every exception there is. *)
Definition submit_except (e : exn) : Response :=
  if isinstance e ValueError then
    error 400 (lit "Invalid data format")
  else if isinstance e ConnectionError then
    error 503 (lit "Unable to connect to verification service")
  else if isinstance e Timeout then
    error 504 (lit "Request timed out. Please try again.")
  else
    error 500 (lit "An unexpected error occurred").

(** A [try] block that ends in [return] or in an exception, with the
    [except] clauses applied. *)
Definition settle (o : outcome Response Empty_set * world) : Response * world :=
  match o with
  | (Return r, w') => (r, w')
  | (Raise e, w') => (submit_except e, w')
  | (Next x, _) => match x with end
  end.

(** The view function of [POST /submit]. *)
Definition submit_app (E : env) (req : request) (w : world)
  : Response * world :=
  settle (submit_try E req w).

End App.

(** ** The rate limiter (Flask-Limiter over [memory://]) *)

(** The source configures the limiter (the [Limiter(...)] call and the
    decorator of [submit_app]); the counting is that of the [limits]
    package's [MemoryStorage] under the default fixed-window strategy, with
    the clock read in whole seconds. *)

(** A limit such as ["5 per minute"]: an amount and a window in seconds. *)
Record rate := mkRate { amount : N; window : Z }.

Definition per_minute (n : N) : rate := mkRate n 60.
Definition per_hour (n : N) : rate := mkRate n 3600.

(** [Limiter(get_remote_address, app=app, default_limits=["100 per hour"],
    storage_uri="memory://")]: every limit is counted per value of the key
    function, which is the client's network address. *)
Record Limiter := mkLimiter {
  key_func : request -> str;
  default_limits : list rate
}.

Definition get_remote_address (req : request) : str := remote_addr req.

Definition limiter : Limiter :=
  mkLimiter get_remote_address [per_hour 100].

(** The limits a route is decorated with; [limiter.limit(...)] has
    [override_defaults=True] unless told otherwise. *)
Record route := mkRoute { decorated : list rate; override_defaults : bool }.

(** [@limiter.limit("5 per minute")] on [/submit]. *)
Definition submit_route : route := mkRoute [per_minute 5] true.

(** The limits checked for a request to a route: the default limits apply
    to a route that has no limits of its own, or whose limits do not
    override them. *)
Definition route_limits (L : Limiter) (r : route) : list rate :=
  match decorated r with
  | [] => default_limits L
  | _ :: _ =>
      if override_defaults r then decorated r
      else default_limits L ++ decorated r
  end.

(** [MemoryStorage]: per counter key, the count and the time the counter
    expires.  A counter key names the client key and the limit. *)
Definition storage_key : Type := str * (N * Z).
Abbreviation storage := (gmap storage_key (N * Z)).

Definition counter_key (ident : str) (r : rate) : storage_key :=
  (ident, (amount r, window r)).

(** [MemoryStorage.incr(key, expiry)]: an expired counter is dropped, the
    counter is incremented, and a counter that has just been created expires
    [expiry] seconds from now. *)
Definition incr (now : Z) (k : storage_key) (expiry : Z) (st : storage)
  : N * storage :=
  match st !! k with
  | Some (c, exp) =>
      if exp <=? now then (1%N, <[k := (1%N, now + expiry)]> st)
      else ((c + 1)%N, <[k := ((c + 1)%N, exp)]> st)
  | None => (1%N, <[k := (1%N, now + expiry)]> st)
  end.

(** [FixedWindowRateLimiter.hit(limit, key)]. *)
Definition hit (now : Z) (r : rate) (ident : str) (st : storage)
  : bool * storage :=
  let '(c, st') := incr now (counter_key ident r) (window r) st in
  ((c <=? amount r)%N, st').

(** The limits are tried in turn; the first one that is exceeded stops the
    request. *)
Fixpoint check_limits (now : Z) (rs : list rate) (ident : str) (st : storage)
  : bool * storage :=
  match rs with
  | [] => (true, st)
  | r :: rest =>
      let '(ok, st') := hit now r ident st in
      if ok then check_limits now rest ident st' else (false, st')
  end.

(** What the client gets: the view function's response, or 429 from the
    limiter. *)
Inductive http :=
| Served (r : Response)
| TooManyRequests.

Definition http_status (h : http) : Z :=
  match h with
  | Served r => status r
  | TooManyRequests => 429
  end.

(** One request to [POST /submit] at clock time [now]: the limiter runs
    before the view function. *)
Definition post_submit `{UnicodeDB} (now : Z) (E : env) (req : request)
    (s : storage * world) : http * (storage * world) :=
  let '(st, w) := s in
  let '(ok, st') :=
    check_limits now (route_limits limiter submit_route)
                 (key_func limiter req) st in
  if ok then
    let '(r, w') := submit_app E req w in (Served r, (st', w'))
  else (TooManyRequests, (st', w)).

(** A request with its arrival time and surroundings. *)
Record arrival := mkArrival { at_time : Z; surroundings : env; what : request }.

Fixpoint serve `{UnicodeDB} (tr : list arrival) (s : storage * world)
  : list http * (storage * world) :=
  match tr with
  | [] => ([], s)
  | a :: rest =>
      let '(h, s1) := post_submit (at_time a) (surroundings a) (what a) s in
      let '(hs, s2) := serve rest s1 in
      (h :: hs, s2)
  end.

Definition fresh : storage * world := (∅, mkWorld []).

(** ** The validation rules, stated one by one *)

(** These definitions follow the wording of the specification (section
    4.1); the theorems below compare them with [submit_app]. *)

(** A Submission: a mapping from field name to string value. *)
Definition submission : Type := list (str * str).

Definition to_json (sub : submission) : json :=
  JObj (map (fun '(k, v) => (k, JStr v)) sub).

Fixpoint field (sub : submission) (k : str) : option str :=
  match sub with
  | [] => None
  | (k', v) :: rest => if str_eqb k' k then Some v else field rest k
  end.

(** A key of a JSON object is missing or maps to an empty value. *)
Definition absent (kv : list (str * json)) (f : str) : bool :=
  match dict_get kv f with
  | Some v => negb (truthy v)
  | None => true
  end.

Definition missing_message (f : str) : str :=
  lit "Missing required field: " ++ names_get FIELD_NAMES f f.

Section Rules.
Context `{U : UnicodeDB}.

(** A rule gives the message of its violation, if any. *)
Definition rule : Type := submission -> option str.

Definition rule_presence : rule := fun sub =>
  match List.find (absent (map (fun '(k, v) => (k, JStr v)) sub))
                  required_fields with
  | Some f => Some (missing_message f)
  | None => None
  end.

Definition rule_pattern (key : str) (pat : regex) (msg : str) : rule :=
  fun sub =>
    match field sub key with
    | Some s => if re_match pat s then None else Some msg
    | None => None
    end.

Definition rule_email : rule :=
  rule_pattern (lit "email_address") email_pattern (lit "Invalid email format").

(** The number of digits of a string. *)
Definition digit_count (s : str) : nat := length (List.filter is_decimal s).

Definition rule_phone : rule := fun sub =>
  match field sub (lit "phone_number") with
  | Some s =>
      if Nat.eqb (digit_count s) 10 then None
      else Some (lit "Phone number must be 10 digits")
  | None => None
  end.

(** Age in whole years on [today]. *)
Definition age_on (today birth : date) : Z :=
  year today - year birth
  - (if pair_lt (month today) (day today) (month birth) (day birth)
     then 1 else 0).

Definition rule_birth (today : date) : rule := fun sub =>
  match field sub (lit "birth_date") with
  | Some s =>
      match strptime_Ymd s with
      | None => Some (lit "Invalid data format")
      | Some b =>
          if age_on today b <? 18
          then Some (lit "Must be at least 18 years old") else None
      end
  | None => None
  end.

Definition rule_postal : rule :=
  rule_pattern (lit "address_postal_code") postal_pattern
               (lit "Postal code must be 5 digits").

Definition rule_ssn : rule :=
  rule_pattern (lit "document_ssn") ssn_pattern
               (lit "SSN must be exactly 9 digits with no dashes").

Definition rule_birth_format : rule :=
  rule_pattern (lit "birth_date") birth_pattern
               (lit "Date of Birth must be in YYYY-MM-DD format").

Definition rule_state : rule :=
  rule_pattern (lit "address_state") state_pattern
               (lit "State must be a 2-letter code (e.g., NY, CA)").

Definition rule_country : rule := fun sub =>
  match field sub (lit "address_country_code") with
  | Some s =>
      if str_eqb s (lit "US") then None else Some (lit "Country must be 'US'")
  | None => None
  end.

(** The first violated rule of a list wins. *)
Fixpoint first_violation (rules : list rule) (sub : submission) : option str :=
  match rules with
  | [] => None
  | r :: rest =>
      match r sub with
      | Some msg => Some msg
      | None => first_violation rest sub
      end
  end.

(** The order of the specification: presence, email, phone, birth date,
    postal code, SSN, state, country code.  The birth-date rule is a
    parameter: the specification's "must parse as calendar date in
    YYYY-MM-DD form" can be read as [rule_birth] or as the stricter
    [rule_birth_strict]. *)
Definition spec_rules (birth : rule) : list rule :=
  [ rule_presence; rule_email; rule_phone; birth; rule_postal; rule_ssn;
    rule_state; rule_country ].

Definition rule_birth_strict (today : date) : rule := fun sub =>
  match rule_birth_format sub with
  | Some _ => Some (lit "Invalid data format")
  | None => rule_birth today sub
  end.

(** The order of the code: the rules of [validate_format] include a second
    check of the birth date, between SSN and state. *)
Definition code_rules (today : date) : list rule :=
  [ rule_presence; rule_email; rule_phone; rule_birth today; rule_postal;
    rule_ssn; rule_birth_format; rule_state; rule_country ].

(** A submission that passes every check. *)
Definition valid (today : date) (sub : submission) : Prop :=
  first_violation (code_rules today) sub = None.

(** ** The provider's answer, as relayed *)

(** [body['summary']['outcome']], when both keys are there. *)
Definition summary_outcome (j : json) : option json :=
  match j with
  | JObj kv =>
      match dict_get kv (lit "summary") with
      | Some (JObj skv) => dict_get skv (lit "outcome")
      | _ => None
      end
  | _ => None
  end.

Definition token_of (j : json) : option json :=
  match j with
  | JObj kv => dict_get kv (lit "evaluation_token")
  | _ => None
  end.

Definition relay (E : env) (data : json) : Response :=
  match alloy E data with
  | Fails e => submit_except e
  | Answer code None =>
      if code =? 201 then error 400 (lit "Invalid data format")
      else error code (lit "Alloy API error")
  | Answer code (Some j) =>
      if code =? 201 then
        match summary_outcome j with
        | Some o =>
            mkResponse 200
              (JObj [(lit "outcome", o);
                     (lit "evaluation_token",
                      match token_of j with Some t => t | None => JNull end)])
        | None => error 500 (lit "An unexpected error occurred")
        end
      else error code (lit "Alloy API error")
  end.

End Rules.

(** ** Concrete inputs *)

(** An application with the given SSN, birth date, state, phone number and
    postal code; the other fields are fine. *)
Definition applicant (ssn birth state phone postal : str) : submission :=
  [ (lit "name_first", lit "Ada");
    (lit "name_last", lit "Lovelace");
    (lit "email_address", lit "ada@example.com");
    (lit "phone_number", phone);
    (lit "address_line_1", lit "12 Analytical Way");
    (lit "address_city", lit "Boston");
    (lit "address_state", state);
    (lit "address_postal_code", postal);
    (lit "address_country_code", lit "US");
    (lit "document_ssn", ssn);
    (lit "birth_date", birth) ].

Definition good_applicant : submission :=
  applicant (lit "123456789") (lit "1990-01-01") (lit "NY")
            (lit "(555) 123-4567") (lit "02134").

(** The provider's body of the specification's example, and the same body
    without its token. *)
Definition approved : json :=
  JObj [ (lit "summary", JObj [(lit "outcome", JStr (lit "Approved"))]);
         (lit "evaluation_token", JStr (lit "abc123")) ].

Definition approved_without_token : json :=
  JObj [ (lit "summary", JObj [(lit "outcome", JStr (lit "Approved"))]) ].

Definition no_summary : json :=
  JObj [ (lit "evaluation_token", JStr (lit "abc123")) ].

(** 15 June 2024, with a provider that always does the same thing. *)
Definition provider_does (r : reply) : env :=
  mkEnv (mkDate 2024 6 15) (fun _ => r).

Definition client : str := lit "203.0.113.7".

Definition post (sub : submission) : request :=
  mkRequest client (Parsed (to_json sub)).

Definition quiet : world := mkWorld [].

(** A body whose first name is there and whose last name is empty. *)
Definition nameless : list (str * json) :=
  [ (lit "name_first", JStr (lit "Ada"));
    (lit "name_last", JStr []);
    (lit "address_line_2", JStr (lit "Flat 2")) ].

(** A birth date that [strptime] accepts and the pattern of
    [validate_format] does not, with a state in lower case, and with a postal
    code of letters. *)
Definition lax_birth_bad_state : submission :=
  applicant (lit "123456789") (lit "1990-1-5") (lit "ny")
            (lit "(555) 123-4567") (lit "02134").

Definition lax_birth_bad_postal : submission :=
  applicant (lit "123456789") (lit "1990-1-5") (lit "NY")
            (lit "(555) 123-4567") (lit "abc").

(** Born on 15 June 2006: 18 years old on 15 June 2024. *)
Definition just_eighteen : submission :=
  applicant (lit "123456789") (lit "2006-06-15") (lit "NY")
            (lit "(555) 123-4567") (lit "02134").

(** Nine digits and a line feed, ten characters in all, as the SSN. *)
Definition ssn_with_line_feed : str := lit "123456789" ++ [10%N].

Definition line_feed_applicant : submission :=
  applicant ssn_with_line_feed (lit "1990-01-01") (lit "NY")
            (lit "(555) 123-4567") (lit "02134").

(** ** Reading a served trace *)

(** The request comes from address [a]. *)
Definition from (a : str) (x : arrival) : bool :=
  str_eqb (remote_addr (what x)) a.

(** The answers given to the requests of address [a], in order. *)
Fixpoint answers_to (a : str) (tr : list arrival) (hs : list http)
  : list http :=
  match tr, hs with
  | x :: tr', h :: hs' =>
      if from a x then h :: answers_to a tr' hs' else answers_to a tr' hs'
  | _, _ => []
  end.

Definition limited (h : http) : bool :=
  match h with
  | TooManyRequests => true
  | Served _ => false
  end.

(** The counter of address [a] on [/submit] is not running at time [t]. *)
Definition idle (st : storage) (a : str) (t : Z) : Prop :=
  match st !! counter_key a (per_minute 5) with
  | Some (_, exp) => exp <= t
  | None => True
  end.

(** 101 clients with different addresses, one request each, all in the same
    second. *)
Definition crowd_address (i : nat) : str :=
  lit "198.51.100." ++ [N.of_nat (48 + i / 100); N.of_nat (48 + i / 10 mod 10);
                        N.of_nat (48 + i mod 10)].

Definition crowd : list arrival :=
  map (fun i => mkArrival 0 (provider_does (Answer 201 (Some approved)))
                          (mkRequest (crowd_address i)
                                     (Parsed (to_json good_applicant))))
      (seq 0 101).

(** One client, 101 requests, one every 12 seconds: five a minute for a
    little over 20 minutes. *)
Definition steady : list arrival :=
  map (fun i => mkArrival (12 * Z.of_nat i)
                          (provider_does (Answer 201 (Some approved)))
                          (post good_applicant))
      (seq 0 101).

(** One client, six requests, ten seconds apart. *)
Definition burst : list arrival :=
  map (fun i => mkArrival (10 * Z.of_nat i)
                          (provider_does (Answer 201 (Some approved)))
                          (post good_applicant))
      (seq 1 5).

Definition first_of_burst : arrival :=
  mkArrival 0 (provider_does (Answer 201 (Some approved)))
            (post good_applicant).

(** ** The checks on any JSON object *)

(** What one check of the handler makes of a body: it lets the body pass,
    rejects it with a message, or raises. *)
Inductive verdict :=
| Pass
| Reject (msg : str)
| Crash (e : exn).

Section Checks.
Context `{U : UnicodeDB}.

Definition check : Type := list (str * json) -> verdict.

Definition check_presence : check := fun kv =>
  match List.find (absent kv) required_fields with
  | Some f => Reject (missing_message f)
  | None => Pass
  end.

(** A field that is there must be a string that matches the pattern. *)
Definition check_pattern (key : str) (pat : regex) (msg : str) : check :=
  fun kv =>
    match dict_get kv key with
    | None => Pass
    | Some (JStr s) => if re_match pat s then Pass else Reject msg
    | Some _ => Crash TypeError
    end.

Definition check_email : check :=
  check_pattern (lit "email_address") email_pattern
                (lit "Invalid email format").

Definition check_phone : check := fun kv =>
  match dict_get kv (lit "phone_number") with
  | None => Pass
  | Some (JStr s) =>
      if Nat.eqb (digit_count s) 10 then Pass
      else Reject (lit "Phone number must be 10 digits")
  | Some _ => Crash TypeError
  end.

Definition check_birth (today : date) : check := fun kv =>
  match dict_get kv (lit "birth_date") with
  | None => Pass
  | Some (JStr s) =>
      match strptime_Ymd s with
      | None => Crash ValueError
      | Some b =>
          if age_on today b <? 18
          then Reject (lit "Must be at least 18 years old") else Pass
      end
  | Some _ => Crash TypeError
  end.

Definition check_postal : check :=
  check_pattern (lit "address_postal_code") postal_pattern
                (lit "Postal code must be 5 digits").

Definition check_ssn : check :=
  check_pattern (lit "document_ssn") ssn_pattern
                (lit "SSN must be exactly 9 digits with no dashes").

Definition check_birth_format : check :=
  check_pattern (lit "birth_date") birth_pattern
                (lit "Date of Birth must be in YYYY-MM-DD format").

Definition check_state : check :=
  check_pattern (lit "address_state") state_pattern
                (lit "State must be a 2-letter code (e.g., NY, CA)").

(** Any value but the string US is rejected; nothing raises. *)
Definition check_country : check := fun kv =>
  match dict_get kv (lit "address_country_code") with
  | None => Pass
  | Some v =>
      if eq_str v (lit "US") then Pass else Reject (lit "Country must be 'US'")
  end.

(** The first check that does not pass decides. *)
Fixpoint first_failure (checks : list check) (kv : list (str * json))
  : verdict :=
  match checks with
  | [] => Pass
  | c :: rest =>
      match c kv with
      | Pass => first_failure rest kv
      | v => v
      end
  end.

(** The checks of [validate_format], and all checks of [submit_app], in the
    order of the code. *)
Definition format_checks : list check :=
  [ check_ssn; check_birth_format; check_state; check_country ].

Definition object_checks (today : date) : list check :=
  [ check_presence; check_email; check_phone; check_birth today;
    check_postal ] ++ format_checks.

End Checks.

(** The bindings of a submission, as those of a JSON object. *)
Definition bindings (sub : submission) : list (str * json) :=
  map (fun '(k, v) => (k, JStr v)) sub.

(** A good application in which the e-mail address is a number. *)
Definition numeric_email : list (str * json) :=
  (lit "email_address", JInt 5) :: bindings good_applicant.

(** ** The shapes the patterns accept *)

(** A line feed at the end of the subject, or nothing: what [$] lets by. *)
Definition line_end (e : str) : Prop := e = [] \/ e = [10%N].

Section Shapes.
Context `{U : UnicodeDB}.

(** [n] characters of a set, then the end. *)
Definition run_of (c : charset) (n : nat) (s : str) : Prop :=
  exists d e, s = d ++ e /\ length d = n /\
              forallb (in_set c) d = true /\ line_end e.

(** local@domain.tld: three non-empty parts without whitespace or \@, the
    last two separated by a dot; the domain and the last part may hold more
    dots. *)
Definition email_shape (s : str) : Prop :=
  exists a b c e,
    s = a ++ [64%N] ++ b ++ [46%N] ++ c ++ e /\
    a <> [] /\ b <> [] /\ c <> [] /\
    forallb (in_set not_space_at) (a ++ b ++ c) = true /\ line_end e.

End Shapes.

(** ** Dates in order, and the fields the checks read *)

(** Date [b] comes after date [t]. *)
Definition later_than (b t : date) : Prop :=
  year t < year b \/
  (year t = year b /\
   (month t < month b \/ (month t = month b /\ day t < day b))).

(** The same month and day, [n] years earlier. *)
Definition years_before (n : Z) (t : date) : date :=
  mkDate (year t - n) (month t) (day t).

(** The fields whose values the checks after the presence check read. *)
Definition checked_fields : list str :=
  [ lit "email_address"; lit "phone_number"; lit "birth_date";
    lit "address_postal_code"; lit "document_ssn"; lit "address_state";
    lit "address_country_code" ].

(** The good application with another name, another street and a second
    address line. *)
Definition renamed_applicant : list (str * json) :=
  [ (lit "address_line_2", JStr (lit "Flat 2"));
    (lit "name_first", JStr (lit "Grace"));
    (lit "name_last", JInt 7);
    (lit "address_line_1", JArr [JStr (lit "1 Compiler Row")]) ]
  ++ bindings good_applicant.

(** ** Writing a date *)

(** The ASCII digit of [n], for [n] from 0 to 9. *)
Definition digit (n : Z) : cp := (48 + Z.to_N n)%N.

Definition two_digits (n : Z) : str := [digit (n / 10); digit (n mod 10)].

Definition four_digits (n : Z) : str :=
  [ digit (n / 1000); digit (n / 100 mod 10); digit (n / 10 mod 10);
    digit (n mod 10) ].

(** [date.isoformat()]: YYYY-MM-DD, zero-padded. *)
Definition isoformat (d : date) : str :=
  four_digits (year d) ++ [45%N] ++ two_digits (month d) ++ [45%N]
  ++ two_digits (day d).

(** * Theorems *)

(** ** Exceptions *)

(** Every class of the table derives from [Exception]: the last [except]
    clause of [submit_app] catches whatever the first three let through. *)
Lemma every_exn_is_Exception (e : exn) : isinstance e Exception = true.
Proof. destruct e; reflexivity. Qed.

(** ** Stepping through statements *)

Lemma bind_next {R A B} (m : M R A) (k : A -> M R B) w a w' :
  m w = (Next a, w') -> bind m k w = k a w'.
Proof. intros Hm. unfold bind. now rewrite Hm. Qed.

Lemma bind_return {R A B} (m : M R A) (k : A -> M R B) w r w' :
  m w = (Return r, w') -> bind m k w = (Return r, w').
Proof. intros Hm. unfold bind. now rewrite Hm. Qed.

Lemma bind_raise {R A B} (m : M R A) (k : A -> M R B) w e w' :
  m w = (Raise e, w') -> bind m k w = (Raise e, w').
Proof.
  intros Hm. unfold bind. now rewrite Hm.
Qed.

(** ** Lookups in a submission *)

Lemma dict_get_to_json (sub : submission) (k : str) :
  dict_get (map (fun '(k, v) => (k, JStr v)) sub) k = JStr <$> field sub k.
Proof.
  induction sub as [|[k' v] sub IH]; simpl; [reflexivity|].
  destruct (str_eqb k' k); [reflexivity | exact IH].
Qed.

Section Stages.
Context `{U : UnicodeDB}.

(** ** The presence loop *)

Lemma presence_loop (kv : list (str * json)) (fs : list str) (w : world) :
  for_each fs (fun field =>
    has <- contains (JObj kv) field ;;
    missing <- (if negb has then ret true
                else v <- getitem (JObj kv) field ;; ret (negb (truthy v))) ;;
    when missing (
      let clean_name := names_get FIELD_NAMES field field in
      return_ (error 400 (lit "Missing required field: " ++ clean_name)))) w
  = match List.find (absent kv) fs with
    | Some f => (Return (error 400 (missing_message f)), w)
    | None => (Next tt, w)
    end.
Proof.
  induction fs as [|f fs IH]; [reflexivity|].
  cbn [for_each List.find].
  destruct (absent kv f) eqn:Ha; unfold absent in Ha.
  - apply bind_return.
    unfold bind, contains, getitem, ret, when, return_, missing_message.
    destruct (dict_get kv f) as [v|]; cbn; [|reflexivity].
    destruct (truthy v); [discriminate | reflexivity].
  - erewrite bind_next; [exact IH|].
    unfold bind, contains, getitem, ret, when, return_.
    destruct (dict_get kv f) as [v|]; cbn; [|discriminate].
    destruct (truthy v); [reflexivity | discriminate].
Qed.

(** ** The checks on one field of a submission *)

Lemma contains_to_json {R} (sub : submission) (k : str) (w : world) :
  contains (R:=R) (to_json sub) k w =
  (Next (match field sub k with Some _ => true | None => false end), w).
Proof.
  unfold contains, to_json, ret. rewrite dict_get_to_json.
  destruct (field sub k); reflexivity.
Qed.

Lemma getitem_to_json {R} (sub : submission) (k : str) (s : str) (w : world) :
  field sub k = Some s ->
  getitem (R:=R) (to_json sub) k w = (Next (JStr s), w).
Proof.
  intros Hk. unfold getitem, to_json, ret. rewrite dict_get_to_json, Hk.
  reflexivity.
Qed.

(** [if key in data: if not re.match(pat, data[key]): return r]. *)
Lemma pattern_stage {R B} (sub : submission) (key : str) (pat : regex)
    (r : R) (K : M R B) (w : world) :
  bind (contains (to_json sub) key) (fun has =>
    bind (when has (
            v <- getitem (to_json sub) key ;;
            m <- py_re_match pat v ;;
            when (negb m) (return_ r)))
         (fun _ => K)) w
  = match field sub key with
    | Some s => if re_match pat s then K w else (Return r, w)
    | None => K w
    end.
Proof.
  rewrite (bind_next _ _ w _ w (contains_to_json sub key w)).
  destruct (field sub key) as [s|] eqn:Hk; [|reflexivity].
  cbn [when]. unfold bind at 1.
  rewrite (bind_next _ _ w _ w (getitem_to_json sub key s w Hk)).
  unfold bind, py_re_match, ret, when, return_.
  destruct (re_match pat s); reflexivity.
Qed.

Lemma call_return {R R'} (f : M R Empty_set) (w w' : world) (r : R) :
  f w = (Return r, w') -> call (R':=R') f w = (Next r, w').
Proof. intros Hf. unfold call. now rewrite Hf. Qed.

(** [if key in data and data[key] != 'US': return r]. *)
Lemma country_stage {R B} (sub : submission) (key : str) (r : R) (K : M R B)
    (w : world) :
  bind (contains (to_json sub) key) (fun has =>
    bind (if has
          then v <- getitem (to_json sub) key ;;
               ret (negb (eq_str v (lit "US")))
          else ret false)
         (fun ne => bind (when ne (return_ r)) (fun _ => K))) w
  = match field sub key with
    | Some s => if str_eqb s (lit "US") then K w else (Return r, w)
    | None => K w
    end.
Proof.
  rewrite (bind_next _ _ w _ w (contains_to_json sub key w)).
  destruct (field sub key) as [s|] eqn:Hk; [|reflexivity].
  unfold bind at 1. unfold bind at 1.
  rewrite (getitem_to_json sub key s w Hk).
  unfold bind, ret, when, return_, eq_str.
  destruct (str_eqb s (lit "US")); reflexivity.
Qed.

Lemma validate_format_spec (sub : submission) (w : world) :
  validate_format (to_json sub) w =
  (Return
     match first_violation
             [rule_ssn; rule_birth_format; rule_state; rule_country] sub with
     | Some msg => (false, Some msg)
     | None => (true, None)
     end, w).
Proof.
  unfold validate_format.
  rewrite !pattern_stage, !country_stage.
  cbn [first_violation].
  unfold rule_ssn, rule_birth_format, rule_state, rule_country, rule_pattern.
  repeat case_match; simplify_eq; reflexivity.
Qed.

Lemma re_sub_nondigits_length (s : str) :
  length (re_sub_empty (CNot CDigit) s) = digit_count s.
Proof.
  unfold re_sub_empty, digit_count. f_equal.
  apply List.filter_ext. intros c. cbn [in_set]. apply negb_involutive.
Qed.

Lemma phone_stage {B} (sub : submission) (r : Response) (K : M Response B)
    (w : world) :
  bind (contains (to_json sub) (lit "phone_number")) (fun has =>
    bind (when has (
            v <- getitem (to_json sub) (lit "phone_number") ;;
            phone_clean <- py_re_sub_empty (CNot CDigit) v ;;
            when (negb (Nat.eqb (length phone_clean) 10)) (return_ r)))
         (fun _ => K)) w
  = match field sub (lit "phone_number") with
    | Some s => if Nat.eqb (digit_count s) 10 then K w else (Return r, w)
    | None => K w
    end.
Proof.
  rewrite (bind_next _ _ w _ w (contains_to_json sub _ w)).
  destruct (field sub (lit "phone_number")) as [s|] eqn:Hk; [|reflexivity].
  cbn [when]. unfold bind at 1.
  rewrite (bind_next _ _ w _ w (getitem_to_json sub _ s w Hk)).
  unfold bind, py_re_sub_empty, ret, when, return_.
  rewrite re_sub_nondigits_length.
  destruct (Nat.eqb (digit_count s) 10); reflexivity.
Qed.

Lemma birth_stage {B} (E : env) (sub : submission) (r : Response)
    (K : M Response B) (w : world) :
  bind (contains (to_json sub) (lit "birth_date")) (fun has =>
    bind (when has (
            v <- getitem (to_json sub) (lit "birth_date") ;;
            birth <- py_strptime v ;;
            let today := today E in
            let age := year today - year birth
                       - Z.b2z (pair_lt (month today) (day today)
                                        (month birth) (day birth)) in
            when (age <? 18) (return_ r)))
         (fun _ => K)) w
  = match field sub (lit "birth_date") with
    | Some s =>
        match strptime_Ymd s with
        | None => (Raise ValueError, w)
        | Some b => if age_on (today E) b <? 18 then (Return r, w) else K w
        end
    | None => K w
    end.
Proof.
  rewrite (bind_next _ _ w _ w (contains_to_json sub _ w)).
  destruct (field sub (lit "birth_date")) as [s|] eqn:Hk; [|reflexivity].
  cbn [when]. unfold bind at 1.
  rewrite (bind_next _ _ w _ w (getitem_to_json sub _ s w Hk)).
  unfold bind, py_strptime, ret, raise, when, return_, age_on.
  destruct (strptime_Ymd s) as [b|]; [|reflexivity].
  cbv zeta. unfold Z.b2z.
  destruct (_ <? 18); reflexivity.
Qed.

(** The call to the provider and what follows it. *)
Lemma provider_stage (E : env) (data : json) (w : world) :
  settle ((response <- requests_post E data ;;
           let '(status_code, text) := response in
           when (negb (status_code =? 201))
             (return_ (error status_code (lit "Alloy API error"))) ;;
           alloy_response <- response_json text ;;
           summary <- getitem alloy_response (lit "summary") ;;
           outcome <- getitem summary (lit "outcome") ;;
           token <- get_method alloy_response (lit "evaluation_token") ;;
           return_ (mkResponse 200
             (JObj [(lit "outcome", outcome);
                    (lit "evaluation_token", token)]))) w)
  = (relay E data, mkWorld (sent w ++ [data])).
Proof.
  unfold relay, bind at 1, requests_post.
  destruct (alloy E data) as [code [j|]|e]; [| |reflexivity];
    unfold bind at 1;
    (destruct (code =? 201); cbn [negb when]; [|reflexivity]);
    unfold ret at 1; unfold bind at 1, response_json; [|reflexivity].
  unfold ret at 1. unfold bind at 1, getitem at 1, summary_outcome, token_of.
  destruct j as [| | | | | |kv]; try reflexivity.
  destruct (dict_get kv (lit "summary")) as [sm|]; [|reflexivity].
  unfold ret at 1. unfold bind at 1, getitem at 1.
  destruct sm as [| | | | | |skv]; try reflexivity.
  destruct (dict_get skv (lit "outcome")) as [o|]; [|reflexivity].
  unfold ret at 1. unfold bind, get_method, ret, return_, settle.
  destruct (dict_get kv (lit "evaluation_token")); reflexivity.
Qed.

(** ** The handler on a submission: the first violated rule, or the relayed
    answer of the provider after one POST *)
Lemma submit_app_spec (E : env) (addr : str) (sub : submission) (w : world) :
  submit_app E (mkRequest addr (Parsed (to_json sub))) w =
  match first_violation (code_rules (today E)) sub with
  | Some msg => (error 400 msg, w)
  | None => (relay E (to_json sub), mkWorld (sent w ++ [to_json sub]))
  end.
Proof.
  unfold submit_app, submit_try.
  rewrite (bind_next _ _ w (to_json sub) w) by reflexivity.
  cbn [code_rules first_violation].
  pose proof (presence_loop (map (fun '(k, v) => (k, JStr v)) sub)
                required_fields w) as Hloop.
  unfold rule_presence at 1.
  destruct (List.find _ required_fields) as [f|].
  { erewrite bind_return by exact Hloop. reflexivity. }
  erewrite bind_next by exact Hloop.
  rewrite pattern_stage, phone_stage, birth_stage, pattern_stage.
  match goal with
  | |- context [bind (call ?f) ?k w] => set (T := bind (call f) k w)
  end.
  assert (HT : settle T =
    match first_violation
            [rule_ssn; rule_birth_format; rule_state; rule_country] sub with
    | Some msg => (error 400 msg, w)
    | None => (relay E (to_json sub), mkWorld (sent w ++ [to_json sub]))
    end).
  { subst T.
    rewrite (bind_next _ _ w _ w
               (call_return _ w w _ (validate_format_spec sub w))).
    destruct (first_violation _ sub) as [msg|]; [reflexivity|].
    cbn [negb when]. unfold bind at 1, ret at 1.
    apply provider_stage. }
  clearbody T. clear Hloop.
  unfold rule_email, rule_phone, rule_birth, rule_postal, rule_pattern.
  cbn [first_violation] in HT.
  repeat case_match; simplify_eq; try reflexivity; try exact HT.
Qed.

End Stages.

(** ** Required fields (C3) *)

Lemma required_has_label (f : str) :
  In f required_fields -> In (f, names_get FIELD_NAMES f f) FIELD_NAMES.
Proof.
  intros Hin. cbn [required_fields In] in Hin.
  repeat (destruct Hin as [<-|Hin]; [vm_compute; tauto|]).
  destruct Hin.
Qed.

(** C3.  A JSON-object body in which [f] is the first required field that is
    missing or maps to an empty (false) value is answered with 400 and
    "Missing required field: <label>", where <label> is the display name
    [FIELD_NAMES] gives to [f]; nothing is sent to the provider.  There are
    11 required fields and [address_line_2] is not one of them. *)
Theorem missing_required_field `{U : UnicodeDB} (E : env) (addr : str)
    (kv : list (str * json)) (w : world) (f : str) :
  List.find (absent kv) required_fields = Some f ->
  (exists label : str,
      In (f, label) FIELD_NAMES /\
      submit_app E (mkRequest addr (Parsed (JObj kv))) w =
      (error 400 (lit "Missing required field: " ++ label), w)) /\
  required_fields =
    map lit [ "name_first"; "name_last"; "email_address"; "phone_number";
              "address_line_1"; "address_city"; "address_state";
              "address_postal_code"; "address_country_code";
              "document_ssn"; "birth_date" ]%string /\
  ~ In (lit "address_line_2") required_fields.
Proof.
  intros Hfind. split; [|split].
  - exists (names_get FIELD_NAMES f f). split.
    + apply required_has_label. exact (proj1 (find_some _ _ Hfind)).
    + unfold submit_app, submit_try.
      rewrite (bind_next _ _ w (JObj kv) w) by reflexivity.
      erewrite bind_return; [reflexivity|].
      rewrite presence_loop, Hfind. reflexivity.
  - reflexivity.
  - vm_compute. intuition discriminate.
Qed.

Lemma missing_required_field_witness :
  (exists label : str,
      In (lit "name_last", label) FIELD_NAMES /\
      submit_app (provider_does (Answer 201 (Some approved)))
                 (mkRequest client (Parsed (JObj nameless))) quiet =
      (error 400 (lit "Missing required field: " ++ label), quiet)) /\
  required_fields =
    map lit [ "name_first"; "name_last"; "email_address"; "phone_number";
              "address_line_1"; "address_city"; "address_state";
              "address_postal_code"; "address_country_code";
              "document_ssn"; "birth_date" ]%string /\
  ~ In (lit "address_line_2") required_fields.
Proof.
  apply (missing_required_field (U:=cpython_ucd)). reflexivity.
Defined.

(** ** Bodies that are not JSON (C4) *)

(** C4, as the code has it.  A request whose body is absent (no JSON content
    type) or does not parse as JSON makes [get_json] raise an HTTP exception
    inside the [try] block; no [except] clause but the last matches it, so
    the answer is 500 with {"error": "An unexpected error occurred"}, and
    nothing is sent to the provider.  The same holds when [get_json] yields
    [None]. *)
Theorem unparseable_body_is_500 `{U : UnicodeDB} (E : env) (addr : str)
    (w : world) :
  submit_app E (mkRequest addr NotJson) w =
    (error 500 (lit "An unexpected error occurred"), w) /\
  submit_app E (mkRequest addr Malformed) w =
    (error 500 (lit "An unexpected error occurred"), w) /\
  submit_app E (mkRequest addr (Parsed JNull)) w =
    (error 500 (lit "An unexpected error occurred"), w).
Proof. repeat split. Qed.

(** C4 as stated fails: a body that does not parse is answered with 500, not
    with 400. *)
Lemma unparseable_body_not_400 :
  status (fst (submit_app (provider_does (Answer 201 (Some approved)))
                 (mkRequest client Malformed) quiet)) = 500 /\
  status (fst (submit_app (provider_does (Answer 201 (Some approved)))
                 (mkRequest client NotJson) quiet)) = 500 /\
  500 <> 400.
Proof. repeat split. discriminate. Qed.

(** ** Relaying the provider (C1, C2, C10) *)

(** C1, as the code has it.  For a submission that passes every check, when
    the provider answers 201 with a JSON body that has [summary.outcome], the
    handler answers 200 with {"outcome": <that value>, "evaluation_token":
    <the body's token>} after one POST; when the body has no
    [evaluation_token], the key is still in the answer, with value null
    ([alloy_response.get('evaluation_token')] is [None]). *)
Theorem provider_success_relayed `{U : UnicodeDB} (E : env) (addr : str)
    (sub : submission) (w : world) (j o : json) :
  valid (today E) sub ->
  alloy E (to_json sub) = Answer 201 (Some j) ->
  summary_outcome j = Some o ->
  submit_app E (mkRequest addr (Parsed (to_json sub))) w =
  (mkResponse 200
     (JObj [ (lit "outcome", o);
             (lit "evaluation_token",
              match token_of j with Some t => t | None => JNull end) ]),
   mkWorld (sent w ++ [to_json sub])).
Proof.
  intros Hvalid Hreply Hout.
  rewrite submit_app_spec, Hvalid. unfold relay.
  rewrite Hreply. cbn. rewrite Hout. reflexivity.
Qed.

Lemma provider_success_relayed_witness :
  submit_app (provider_does (Answer 201 (Some approved)))
             (post good_applicant) quiet =
  (mkResponse 200
     (JObj [ (lit "outcome", JStr (lit "Approved"));
             (lit "evaluation_token", JStr (lit "abc123")) ]),
   mkWorld [to_json good_applicant]).
Proof.
  apply (provider_success_relayed (U:=cpython_ucd)
           (provider_does (Answer 201 (Some approved))) client
           good_applicant quiet approved (JStr (lit "Approved")));
    vm_compute; reflexivity.
Defined.

(** C1 as stated fails in its last part: the provider's body has no
    [evaluation_token], and the answer has the key. *)
Lemma token_key_present_when_omitted :
  let r := fst (submit_app
                  (provider_does (Answer 201 (Some approved_without_token)))
                  (post good_applicant) quiet) in
  token_of approved_without_token = None /\
  status r = 200 /\
  token_of (body r) = Some JNull.
Proof. vm_compute. repeat split. Qed.

Lemma connection_error_not_value (e : exn) :
  isinstance e ConnectionError = true -> isinstance e ValueError = false.
Proof. destruct e; vm_compute; congruence. Qed.

Lemma timeout_only (e : exn) :
  isinstance e Timeout = true -> isinstance e ConnectionError = false ->
  isinstance e ValueError = false.
Proof. destruct e; vm_compute; congruence. Qed.

(** C2, as the code has it.  For a submission that passes every check the
    handler POSTs to the provider exactly once, whatever comes back, and: a
    status other than 201 gives that status with {"error": "Alloy API
    error"}; an exception that is a [ConnectionError] gives 503 with "Unable
    to connect to verification service"; an exception that is a [Timeout] and
    not a [ConnectionError] (a read timeout) gives 504 with "Request timed
    out. Please try again."; a [ConnectTimeout], which is both, gives 503. *)
Theorem provider_failures_mapped `{U : UnicodeDB} (E : env) (addr : str)
    (sub : submission) (w : world) :
  valid (today E) sub ->
  let res := submit_app E (mkRequest addr (Parsed (to_json sub))) w in
  snd res = mkWorld (sent w ++ [to_json sub]) /\
  (forall code p, alloy E (to_json sub) = Answer code p -> code <> 201 ->
     fst res = error code (lit "Alloy API error")) /\
  (forall e, alloy E (to_json sub) = Fails e ->
     isinstance e ConnectionError = true ->
     fst res = error 503 (lit "Unable to connect to verification service")) /\
  (forall e, alloy E (to_json sub) = Fails e ->
     isinstance e Timeout = true -> isinstance e ConnectionError = false ->
     fst res = error 504 (lit "Request timed out. Please try again.")) /\
  (alloy E (to_json sub) = Fails ConnectTimeout ->
     fst res = error 503 (lit "Unable to connect to verification service")).
Proof.
  intros Hvalid res. subst res. unfold valid in Hvalid.
  rewrite submit_app_spec, Hvalid. cbn [fst snd].
  split; [reflexivity|]. unfold relay.
  split; [|split; [|split]].
  - intros code p Hreply Hcode. rewrite Hreply.
    apply Z.eqb_neq in Hcode. destruct p; cbn match; rewrite Hcode; reflexivity.
  - intros e Hreply Hconn. rewrite Hreply. unfold submit_except.
    now rewrite (connection_error_not_value e Hconn), Hconn.
  - intros e Hreply Htime Hconn. rewrite Hreply. unfold submit_except.
    now rewrite (timeout_only e Htime Hconn), Hconn, Htime.
  - intros Hreply. rewrite Hreply. reflexivity.
Qed.

Lemma provider_failures_mapped_witness :
  let res := submit_app (provider_does (Fails ReadTimeout))
                        (post good_applicant) quiet in
  snd res = mkWorld (sent quiet ++ [to_json good_applicant]) /\
  (forall code p,
     alloy (provider_does (Fails ReadTimeout)) (to_json good_applicant)
       = Answer code p -> code <> 201 ->
     fst res = error code (lit "Alloy API error")) /\
  (forall e,
     alloy (provider_does (Fails ReadTimeout)) (to_json good_applicant)
       = Fails e ->
     isinstance e ConnectionError = true ->
     fst res = error 503 (lit "Unable to connect to verification service")) /\
  (forall e,
     alloy (provider_does (Fails ReadTimeout)) (to_json good_applicant)
       = Fails e ->
     isinstance e Timeout = true -> isinstance e ConnectionError = false ->
     fst res = error 504 (lit "Request timed out. Please try again.")) /\
  (alloy (provider_does (Fails ReadTimeout)) (to_json good_applicant)
     = Fails ConnectTimeout ->
   fst res = error 503 (lit "Unable to connect to verification service")).
Proof.
  apply (provider_failures_mapped (U:=cpython_ucd)
           (provider_does (Fails ReadTimeout)) client good_applicant quiet).
  vm_compute. reflexivity.
Defined.

(** C2 as stated fails for one kind of timeout: a connect timeout is a
    [Timeout] of the client library, and the answer is 503, not 504. *)
Lemma connect_timeout_is_503 :
  isinstance ConnectTimeout Timeout = true /\
  fst (submit_app (provider_does (Fails ConnectTimeout))
                  (post good_applicant) quiet)
  = error 503 (lit "Unable to connect to verification service") /\
  503 <> 504.
Proof. vm_compute. repeat split. discriminate. Qed.

(** C10.  For a submission that passes every check, when the provider
    answers 201 with a JSON body in which no [outcome] is to be found under
    [summary] (the body is not an object, has no [summary], or its [summary]
    is not an object with an [outcome]), the handler answers 500 with
    {"error": "An unexpected error occurred"}. *)
Theorem missing_outcome_is_500 `{U : UnicodeDB} (E : env) (addr : str)
    (sub : submission) (w : world) (j : json) :
  valid (today E) sub ->
  alloy E (to_json sub) = Answer 201 (Some j) ->
  summary_outcome j = None ->
  submit_app E (mkRequest addr (Parsed (to_json sub))) w =
  (error 500 (lit "An unexpected error occurred"),
   mkWorld (sent w ++ [to_json sub])).
Proof.
  intros Hvalid Hreply Hout.
  rewrite submit_app_spec, Hvalid. unfold relay.
  rewrite Hreply. cbn. rewrite Hout. reflexivity.
Qed.

Lemma missing_outcome_is_500_witness :
  submit_app (provider_does (Answer 201 (Some no_summary)))
             (post good_applicant) quiet =
  (error 500 (lit "An unexpected error occurred"),
   mkWorld (sent quiet ++ [to_json good_applicant])).
Proof.
  apply (missing_outcome_is_500 (U:=cpython_ucd)
           (provider_does (Answer 201 (Some no_summary))) client
           good_applicant quiet no_summary);
    vm_compute; reflexivity.
Defined.

(** ** The order of the checks (C5) *)

(** C5, as the code has it.  On every submission the handler answers with
    the first violated rule, and with that rule only, in the order presence,
    email, phone, birth date (parse, then age), postal code, SSN, birth date
    again (the pattern YYYY-MM-DD of [validate_format]), state, country code:
    the answer is 400 with that rule's message and nothing is sent to the
    provider; when no rule is violated the submission is POSTed once and the
    provider's answer is relayed. *)
Theorem first_violated_rule_wins `{U : UnicodeDB} (E : env) (addr : str)
    (sub : submission) (w : world) :
  submit_app E (mkRequest addr (Parsed (to_json sub))) w =
  match first_violation
          [ rule_presence; rule_email; rule_phone; rule_birth (today E);
            rule_postal; rule_ssn; rule_birth_format; rule_state;
            rule_country ] sub with
  | Some msg => (error 400 msg, w)
  | None => (relay E (to_json sub), mkWorld (sent w ++ [to_json sub]))
  end.
Proof. apply submit_app_spec. Qed.

(** C5 as stated fails: the order of eight checks leaves out the second
    check of the birth date.  With a birth date such as 1990-1-5, which
    [strptime] parses, the eight checks give the state's message where the
    handler gives the birth date's; and if such a date counts as a violation
    of the birth-date rule, the eight checks give that violation where the
    handler gives the postal code's message. *)
Lemma order_of_eight_checks_fails :
  let E := provider_does (Answer 201 (Some approved)) in
  first_violation (spec_rules (rule_birth (today E))) lax_birth_bad_state
    = Some (lit "State must be a 2-letter code (e.g., NY, CA)") /\
  fst (submit_app E (post lax_birth_bad_state) quiet)
    = error 400 (lit "Date of Birth must be in YYYY-MM-DD format") /\
  first_violation (spec_rules (rule_birth_strict (today E)))
                  lax_birth_bad_postal
    = Some (lit "Invalid data format") /\
  fst (submit_app E (post lax_birth_bad_postal) quiet)
    = error 400 (lit "Postal code must be 5 digits") /\
  str_eqb (lit "State must be a 2-letter code (e.g., NY, CA)")
          (lit "Date of Birth must be in YYYY-MM-DD format") = false /\
  str_eqb (lit "Invalid data format")
          (lit "Postal code must be 5 digits") = false.
Proof. vm_compute. repeat split. Qed.

(** ** Messages of the later rules *)

(** The messages the rules after the birth date can give. *)
Lemma later_messages `{U : UnicodeDB} (sub : submission) (msg : str) :
  first_violation [ rule_postal; rule_ssn; rule_birth_format; rule_state;
                    rule_country ] sub = Some msg ->
  In msg [ lit "Postal code must be 5 digits";
           lit "SSN must be exactly 9 digits with no dashes";
           lit "Date of Birth must be in YYYY-MM-DD format";
           lit "State must be a 2-letter code (e.g., NY, CA)";
           lit "Country must be 'US'" ].
Proof.
  cbn [first_violation].
  unfold rule_postal, rule_ssn, rule_birth_format, rule_state,
    rule_country, rule_pattern.
  intros H. repeat case_match; simplify_eq; cbn [In]; tauto.
Qed.

Lemma birth_messages `{U : UnicodeDB} (t : date) (sub : submission)
    (msg : str) :
  rule_birth t sub = Some msg ->
  In msg [ lit "Invalid data format"; lit "Must be at least 18 years old" ].
Proof.
  unfold rule_birth. intros H.
  repeat case_match; simplify_eq; cbn [In]; tauto.
Qed.

Lemma first_violation_cons `{U : UnicodeDB} (r : rule) (rs : list rule)
    (sub : submission) :
  first_violation (r :: rs) sub =
  match r sub with
  | Some msg => Some msg
  | None => first_violation rs sub
  end.
Proof. reflexivity. Qed.

Lemma world_grows (w : world) (d : json) : mkWorld (sent w ++ [d]) <> w.
Proof.
  destruct w as [l]. cbn. intros [= H].
  apply (f_equal (@length json)) in H. rewrite length_app in H. cbn in H. lia.
Qed.

(** ** The phone check (C8) *)

Lemma digit_count_ascii `{U : UnicodeDB} (s : str) :
  ascii_compatible U -> Forall (fun c => (c < 128)%N) s ->
  digit_count s =
  length (List.filter (fun c => match ascii_decimal c with
                                | Some _ => true | None => false end) s).
Proof.
  intros HU Hs. unfold digit_count. f_equal.
  induction Hs as [|c s Hc Hs IH]; [reflexivity|].
  cbn [List.filter]. unfold is_decimal at 1.
  rewrite (proj1 (HU c Hc)), IH. reflexivity.
Qed.

Lemma cpython_ucd_ascii : ascii_compatible cpython_ucd.
Proof.
  intros c Hc.
  assert (Hall : forallb (fun c =>
              bool_decide (to_decimal c = ascii_decimal c) &&
              Bool.eqb (is_space c) (ascii_space c))
            (map N.of_nat (seq 0 128)) = true) by (vm_compute; reflexivity).
  rewrite forallb_forall in Hall.
  specialize (Hall c).
  assert (Hin : In c (map N.of_nat (seq 0 128))).
  { apply in_map_iff. exists (N.to_nat c). split; [lia|].
    apply in_seq. lia. }
  apply Hall in Hin. apply andb_true_iff in Hin as [H1 H2].
  apply bool_decide_eq_true in H1. apply Bool.eqb_prop in H2. now split.
Qed.

(** C8.  For a submission that passes the presence and email checks, with
    phone number [p]: what the check measures is [p] with every character
    that is not a digit removed; the answer is 400 with "Phone number must be
    10 digits" exactly when the number of digits left is not 10.  With the
    ASCII digits as every Python has them, "(555) 123-4567" has 10 digits and
    "555-123" has 6. *)
Theorem phone_check `{U : UnicodeDB} (E : env) (addr : str)
    (sub : submission) (w : world) (p : str) :
  rule_presence sub = None ->
  rule_email sub = None ->
  field sub (lit "phone_number") = Some p ->
  re_sub_empty (CNot CDigit) p = List.filter is_decimal p /\
  (submit_app E (mkRequest addr (Parsed (to_json sub))) w =
     (error 400 (lit "Phone number must be 10 digits"), w)
   <-> digit_count p <> 10%nat) /\
  (ascii_compatible U ->
   digit_count (lit "(555) 123-4567") = 10%nat /\
   digit_count (lit "555-123") = 6%nat).
Proof.
  intros Hpres Hemail Hphone. split; [|split].
  - unfold re_sub_empty. apply List.filter_ext. intros c. cbn [in_set].
    apply negb_involutive.
  - rewrite submit_app_spec. unfold code_rules.
    rewrite (first_violation_cons rule_presence), Hpres,
      (first_violation_cons rule_email), Hemail,
      (first_violation_cons rule_phone).
    unfold rule_phone at 1. rewrite Hphone.
    destruct (Nat.eqb_spec (digit_count p) 10) as [Hten|Hnot].
    + split; [|tauto]. intros Heq. exfalso.
      rewrite (first_violation_cons (rule_birth _)) in Heq.
      destruct (rule_birth (today E) sub) as [msg|] eqn:Hbirth.
      * apply birth_messages in Hbirth. injection Heq as Heq.
        rewrite Heq in Hbirth. vm_compute in Hbirth.
        intuition discriminate.
      * destruct (first_violation _ sub) as [msg|] eqn:Hlater.
        -- apply later_messages in Hlater. injection Heq as Heq.
           rewrite Heq in Hlater. vm_compute in Hlater.
           intuition discriminate.
        -- injection Heq as _ Hw. exact (world_grows _ _ Hw).
    + tauto.
  - intros HU.
    rewrite !digit_count_ascii by
      (try exact HU; repeat constructor).
    split; reflexivity.
Qed.

Lemma phone_check_witness :
  re_sub_empty (CNot CDigit) (lit "(555) 123-4567")
    = List.filter is_decimal (lit "(555) 123-4567") /\
  (submit_app (provider_does (Answer 201 (Some approved)))
              (mkRequest client (Parsed (to_json good_applicant))) quiet =
     (error 400 (lit "Phone number must be 10 digits"), quiet)
   <-> digit_count (lit "(555) 123-4567") <> 10%nat) /\
  (ascii_compatible cpython_ucd ->
   digit_count (lit "(555) 123-4567") = 10%nat /\
   digit_count (lit "555-123") = 6%nat).
Proof.
  apply (phone_check (U:=cpython_ucd)
           (provider_does (Answer 201 (Some approved))) client
           good_applicant quiet (lit "(555) 123-4567"));
    vm_compute; reflexivity.
Defined.

(** The two phone numbers of the specification, end to end. *)
Lemma phone_examples :
  status (fst (submit_app (provider_does (Answer 201 (Some approved)))
                          (post good_applicant) quiet)) = 200 /\
  submit_app (provider_does (Answer 201 (Some approved)))
             (post (applicant (lit "123456789") (lit "1990-01-01") (lit "NY")
                              (lit "555-123") (lit "02134"))) quiet
  = (error 400 (lit "Phone number must be 10 digits"), quiet).
Proof. vm_compute. split; reflexivity. Qed.

(** ** The birth date (C6) *)

Lemma pair_lt_irrefl (a b : Z) : pair_lt a b a b = false.
Proof.
  unfold pair_lt. rewrite !Z.ltb_irrefl, Z.eqb_refl. reflexivity.
Qed.

(** C6.  For a submission that passes the presence, email and phone checks,
    with birth date [s]: if [strptime] does not parse [s] as a calendar date
    in the form %Y-%m-%d, the answer is 400 with "Invalid data format"; if it
    parses [s] although [s] is not of the pattern YYYY-MM-DD, the answer is
    still a 400 with an error message; if the age (today's year minus the
    birth year, minus one when today's month and day come before the birth
    month and day) is under 18, the answer is 400 with "Must be at least 18
    years old"; if the age is 18 or more, the answer is not that one; and a
    birth date 18 years ago to the day has age 18. *)
Theorem birth_date_check `{U : UnicodeDB} (E : env) (addr : str)
    (sub : submission) (w : world) (s : str) :
  rule_presence sub = None ->
  rule_email sub = None ->
  rule_phone sub = None ->
  field sub (lit "birth_date") = Some s ->
  let res := submit_app E (mkRequest addr (Parsed (to_json sub))) w in
  (strptime_Ymd s = None ->
     res = (error 400 (lit "Invalid data format"), w)) /\
  (forall b, strptime_Ymd s = Some b -> re_match birth_pattern s = false ->
     exists msg, res = (error 400 msg, w)) /\
  (forall b, strptime_Ymd s = Some b -> age_on (today E) b < 18 ->
     res = (error 400 (lit "Must be at least 18 years old"), w)) /\
  (forall b, strptime_Ymd s = Some b -> 18 <= age_on (today E) b ->
     res <> (error 400 (lit "Must be at least 18 years old"), w)) /\
  (forall b, strptime_Ymd s = Some b ->
     year b = year (today E) - 18 -> month b = month (today E) ->
     day b = day (today E) ->
     age_on (today E) b = 18).
Proof.
  intros Hpres Hemail Hphone Hbirth res. subst res.
  rewrite submit_app_spec. unfold code_rules.
  rewrite (first_violation_cons rule_presence), Hpres,
    (first_violation_cons rule_email), Hemail,
    (first_violation_cons rule_phone), Hphone,
    (first_violation_cons (rule_birth _)).
  unfold rule_birth. rewrite Hbirth.
  split; [|split; [|split; [|split]]].
  - intros Hparse. rewrite Hparse. reflexivity.
  - intros b Hparse Hpat. rewrite Hparse.
    destruct (age_on (today E) b <? 18); [eauto|].
    rewrite (first_violation_cons rule_postal),
      (first_violation_cons rule_ssn),
      (first_violation_cons rule_birth_format).
    unfold rule_birth_format at 1, rule_pattern. rewrite Hbirth, Hpat.
    destruct (rule_postal sub); [eauto|].
    destruct (rule_ssn sub); eauto.
  - intros b Hparse Hage. rewrite Hparse.
    apply Z.ltb_lt in Hage. rewrite Hage. reflexivity.
  - intros b Hparse Hage. rewrite Hparse.
    apply Z.ltb_ge in Hage. rewrite Hage. intros Heq.
    destruct (first_violation _ sub) as [msg|] eqn:Hlater.
    + apply later_messages in Hlater. injection Heq as Heq.
      rewrite Heq in Hlater. vm_compute in Hlater. intuition discriminate.
    + injection Heq as _ Hw. exact (world_grows _ _ Hw).
  - intros b _ Hy Hm Hd. unfold age_on.
    rewrite Hm, Hd, pair_lt_irrefl. lia.
Qed.

Lemma birth_date_check_witness :
  let res := submit_app (provider_does (Answer 201 (Some approved)))
               (mkRequest client (Parsed (to_json just_eighteen))) quiet in
  (strptime_Ymd (lit "2006-06-15") = None ->
     res = (error 400 (lit "Invalid data format"), quiet)) /\
  (forall b, strptime_Ymd (lit "2006-06-15") = Some b ->
     re_match birth_pattern (lit "2006-06-15") = false ->
     exists msg, res = (error 400 msg, quiet)) /\
  (forall b, strptime_Ymd (lit "2006-06-15") = Some b ->
     age_on (mkDate 2024 6 15) b < 18 ->
     res = (error 400 (lit "Must be at least 18 years old"), quiet)) /\
  (forall b, strptime_Ymd (lit "2006-06-15") = Some b ->
     18 <= age_on (mkDate 2024 6 15) b ->
     res <> (error 400 (lit "Must be at least 18 years old"), quiet)) /\
  (forall b, strptime_Ymd (lit "2006-06-15") = Some b ->
     year b = 2024 - 18 -> month b = 6 -> day b = 15 ->
     age_on (mkDate 2024 6 15) b = 18).
Proof.
  apply (birth_date_check (U:=cpython_ucd)
           (provider_does (Answer 201 (Some approved))) client
           just_eighteen quiet (lit "2006-06-15"));
    vm_compute; reflexivity.
Defined.

(** On 15 June 2024: born 15 June 2006 is accepted, born a day later is
    not, and 30 February is not a date. *)
Lemma birth_date_examples :
  status (fst (submit_app (provider_does (Answer 201 (Some approved)))
                          (post just_eighteen) quiet)) = 200 /\
  fst (submit_app (provider_does (Answer 201 (Some approved)))
         (post (applicant (lit "123456789") (lit "2006-06-16") (lit "NY")
                          (lit "(555) 123-4567") (lit "02134"))) quiet)
  = error 400 (lit "Must be at least 18 years old") /\
  fst (submit_app (provider_does (Answer 201 (Some approved)))
         (post (applicant (lit "123456789") (lit "1990-02-30") (lit "NY")
                          (lit "(555) 123-4567") (lit "02134"))) quiet)
  = error 400 (lit "Invalid data format").
Proof. vm_compute. repeat split. Qed.

(** ** The SSN check (C7) *)

Lemma rep_ends_exact (p : cp -> bool) (n : nat) (s : str) :
  rep_ends p n (Some n) s =
  if (n <=? length s)%nat && forallb p (firstn n s) then [skipn n s] else [].
Proof.
  revert s. induction n as [|n IH]; intros s.
  - destruct s; reflexivity.
  - destruct s as [|x t]; [reflexivity|].
    cbn [rep_ends app Nat.pred fmap option_fmap option_map firstn skipn
         forallb length].
    destruct (p x); [|now rewrite andb_false_r].
    rewrite IH. reflexivity.
Qed.

(** What [re.match(r'^\d{n}$', s)] accepts: [n] digits, and [n] digits
    followed by one line feed. *)
Lemma match_digits_anchored `{U : UnicodeDB} (n : nat) (s : str) :
  re_match (Bol ⋅ digits n ⋅ Eol)%re s = true <->
  (n <= length s)%nat /\ forallb is_decimal (firstn n s) = true /\
  (skipn n s = [] \/ skipn n s = [10%N]).
Proof.
  unfold re_match, digits. cbn [ends].
  rewrite Nat.eqb_refl. cbn [flat_map]. rewrite app_nil_r.
  change (in_set CDigit) with is_decimal. rewrite rep_ends_exact.
  destruct (Nat.leb_spec n (length s)) as [Hle|Hlt]; cbn [andb].
  - destruct (forallb is_decimal (firstn n s)); cbn [flat_map].
    + rewrite app_nil_r.
      destruct (skipn n s) as [|c [|c' r]] eqn:Hrest.
      * split; [tauto | reflexivity].
      * destruct (N.eqb_spec c 10) as [->|Hne].
        -- split; [tauto | reflexivity].
        -- split; [discriminate|]. intros (_ & _ & [H|H]); congruence.
      * split; [discriminate|]. intros (_ & _ & [H|H]); discriminate.
    + split; [discriminate|]. intros (_ & H & _); discriminate.
  - split; [discriminate|]. intros (H & _); lia.
Qed.

(** The part of C7 the code keeps: every string of exactly nine digits
    passes the SSN check, and a string that is shorter or has another
    character among its first nine does not. *)
Lemma nine_digits_pass `{U : UnicodeDB} (s : str) :
  length s = 9%nat -> forallb is_decimal s = true ->
  re_match ssn_pattern s = true.
Proof.
  intros Hlen Hdig. apply (match_digits_anchored 9 s).
  rewrite firstn_all2, skipn_all2 by lia. split; [lia|]. tauto.
Qed.

Lemma dashed_and_short_ssn_rejected :
  rule_ssn (applicant (lit "123-45-6789") (lit "1990-01-01") (lit "NY")
                      (lit "(555) 123-4567") (lit "02134"))
    = Some (lit "SSN must be exactly 9 digits with no dashes") /\
  rule_ssn (applicant (lit "12345") (lit "1990-01-01") (lit "NY")
                      (lit "(555) 123-4567") (lit "02134"))
    = Some (lit "SSN must be exactly 9 digits with no dashes").
Proof. vm_compute. split; reflexivity. Qed.

(** C7 at the input where the code departs from it: an SSN of ten
    characters, nine digits and a line feed, passes the SSN check (the [$] of
    the pattern also matches before a final line feed); the submission passes
    every check, is POSTed to the provider as it is, and is answered with
    200. *)
Theorem ssn_with_line_feed_accepted :
  length ssn_with_line_feed = 10%nat /\
  forallb is_decimal ssn_with_line_feed = false /\
  re_match ssn_pattern ssn_with_line_feed = true /\
  valid (mkDate 2024 6 15) line_feed_applicant /\
  submit_app (provider_does (Answer 201 (Some approved)))
             (post line_feed_applicant) quiet =
  (mkResponse 200
     (JObj [ (lit "outcome", JStr (lit "Approved"));
             (lit "evaluation_token", JStr (lit "abc123")) ]),
   mkWorld [to_json line_feed_applicant]).
Proof. vm_compute. repeat split. Qed.

(** ** The rate limit on [/submit] (C9) *)

Lemma submit_limits : route_limits limiter submit_route = [per_minute 5].
Proof. reflexivity. Qed.

Lemma counter_key_inj (a b : str) (r : rate) :
  counter_key a r = counter_key b r -> a = b.
Proof. unfold counter_key. congruence. Qed.

(** One request to [/submit], seen from the counter of its address. *)
Lemma post_submit_counter `{U : UnicodeDB} (now : Z) (E : env)
    (req : request) (st : storage) (w : world) :
  let k := counter_key (remote_addr req) (per_minute 5) in
  let c := match st !! k with
           | Some (c, exp) => if exp <=? now then 1%N else (c + 1)%N
           | None => 1%N
           end in
  let exp := match st !! k with
             | Some (_, exp) => if exp <=? now then now + 60 else exp
             | None => now + 60
             end in
  post_submit now E req (st, w) =
  if (c <=? 5)%N
  then (Served (fst (submit_app E req w)),
        (<[k := (c, exp)]> st, snd (submit_app E req w)))
  else (TooManyRequests, (<[k := (c, exp)]> st, w)).
Proof.
  intros k c exp. subst k c exp.
  unfold post_submit. rewrite submit_limits.
  cbn [check_limits key_func limiter]. unfold get_remote_address.
  unfold hit, incr. cbn [window amount per_minute].
  destruct (st !! counter_key (remote_addr req) (per_minute 5))
    as [[c exp]|]; [destruct (exp <=? now)|];
    destruct (submit_app E req w) as [r w'];
    repeat case_match; simplify_eq; reflexivity.
Qed.

(** While the counter of [a] runs, with count [c], the [i]-th next request
    of [a] is refused exactly when [c + i] has reached 5. *)
Lemma serve_window `{U : UnicodeDB} (a : str) (exp : Z) (tr : list arrival) :
  forall (st : storage) (w : world) (c : N),
  st !! counter_key a (per_minute 5) = Some (c, exp) ->
  (forall x, In x tr -> remote_addr (what x) = a -> at_time x < exp) ->
  forall (i : nat) (h : http),
  answers_to a tr (fst (serve tr (st, w))) !! i = Some h ->
  limited h = (5 <=? c + N.of_nat i)%N.
Proof.
  induction tr as [|x tr IH]; intros st w c Hk Hin i h Hi.
  - destruct i; discriminate.
  - cbn [serve] in Hi.
    pose proof (post_submit_counter (at_time x) (surroundings x) (what x)
                  st w) as Hpost. cbv zeta in Hpost.
    destruct (post_submit (at_time x) (surroundings x) (what x) (st, w))
      as [h0 [st1 w1]] eqn:Hstep.
    destruct (serve tr (st1, w1)) as [hs s2] eqn:Hrest.
    cbn [fst answers_to] in Hi. unfold from, str_eqb in Hi.
    assert (Hhs : hs = fst (serve tr (st1, w1))) by now rewrite Hrest.
    destruct (bool_decide_reflect (remote_addr (what x) = a)) as [Ha|Hna].
    + rewrite Ha, Hk in Hpost.
      assert (Hlive : (exp <=? at_time x) = false).
      { apply Z.leb_gt. apply Hin; [now left | exact Ha]. }
      rewrite Hlive in Hpost.
      assert (Hk1 : st1 !! counter_key a (per_minute 5)
                    = Some ((c + 1)%N, exp)).
      { destruct (c + 1 <=? 5)%N; simplify_eq; apply lookup_insert_eq. }
      destruct i as [|i]; cbn in Hi.
      * injection Hi as <-.
        destruct (N.leb_spec (c + 1) 5); simplify_eq; cbn [limited];
          symmetry; [apply N.leb_gt | apply N.leb_le]; lia.
      * rewrite Hhs in Hi.
        rewrite (IH st1 w1 (c + 1)%N Hk1 (fun y Hy => Hin y (or_intror Hy))
                    i h Hi).
        f_equal. lia.
    + assert (Hk1 : st1 !! counter_key a (per_minute 5) = Some (c, exp)).
      { assert (Hne : counter_key (remote_addr (what x)) (per_minute 5)
                      <> counter_key a (per_minute 5))
          by (intros Heq; apply Hna, (counter_key_inj _ _ _ Heq)).
        repeat case_match; simplify_eq;
          (rewrite lookup_insert_ne by exact Hne); exact Hk. }
      rewrite Hhs in Hi.
      exact (IH st1 w1 c Hk1 (fun y Hy => Hin y (or_intror Hy)) i h Hi).
Qed.

(** C9, as the code has it.  The only limit checked on [/submit] is the
    route's own, 5 per minute, counted per client address in a window that
    opens with the first request counted.  When a request of address [a]
    arrives while the counter of [a] is idle, then of that request and the
    further requests of [a] that arrive before the window closes (60 seconds
    later), whatever other clients do in between, the first five are served
    and every later one gets 429; a request that gets 429 never reaches the
    view function (nothing is validated, nothing is sent to the provider). *)
Theorem submit_rate_limit `{U : UnicodeDB} (a : str) (x0 : arrival)
    (tr : list arrival) (st : storage) (w : world) :
  remote_addr (what x0) = a ->
  idle st a (at_time x0) ->
  (forall x, In x tr -> remote_addr (what x) = a ->
             at_time x < at_time x0 + 60) ->
  route_limits limiter submit_route = [per_minute 5] /\
  (forall (i : nat) (h : http),
     answers_to a (x0 :: tr) (fst (serve (x0 :: tr) (st, w))) !! i = Some h ->
     limited h = (5 <=? i)%nat) /\
  (forall now E req st' w',
     fst (post_submit now E req (st', w')) = TooManyRequests ->
     http_status (fst (post_submit now E req (st', w'))) = 429 /\
     snd (snd (post_submit now E req (st', w'))) = w').
Proof.
  intros Ha Hidle Hin. split; [reflexivity|]. split.
  - intros i h Hi. cbn [serve] in Hi.
    pose proof (post_submit_counter (at_time x0) (surroundings x0) (what x0)
                  st w) as Hpost. cbv zeta in Hpost.
    rewrite Ha in Hpost. unfold idle in Hidle.
    destruct (post_submit (at_time x0) (surroundings x0) (what x0) (st, w))
      as [h0 [st1 w1]] eqn:Hstep.
    destruct (serve tr (st1, w1)) as [hs s2] eqn:Hrest.
    assert (Hhs : hs = fst (serve tr (st1, w1))) by now rewrite Hrest.
    cbn [fst answers_to] in Hi. unfold from, str_eqb in Hi.
    rewrite bool_decide_eq_true_2 in Hi by exact Ha.
    assert (Hfirst : h0 = Served (fst (submit_app (surroundings x0) (what x0) w))
              /\ st1 !! counter_key a (per_minute 5)
                 = Some (1%N, at_time x0 + 60)).
    { destruct (st !! counter_key a (per_minute 5)) as [[c exp]|].
      - apply Z.leb_le in Hidle. rewrite Hidle in Hpost.
        cbn in Hpost. simplify_eq. split; [reflexivity|].
        apply lookup_insert_eq.
      - cbn in Hpost. simplify_eq. split; [reflexivity|].
        apply lookup_insert_eq. }
    destruct Hfirst as [-> Hk1].
    destruct i as [|i]; cbn in Hi.
    + injection Hi as <-. reflexivity.
    + rewrite Hhs in Hi.
      rewrite (serve_window a (at_time x0 + 60) tr st1 w1 1%N Hk1 Hin i h Hi).
      destruct (Nat.leb_spec 5 (S i)); [apply N.leb_le | apply N.leb_gt]; lia.
  - intros now E req st' w' Hlim.
    pose proof (post_submit_counter now E req st' w') as Hpost.
    cbv zeta in Hpost. rewrite Hpost in Hlim |- *.
    destruct (_ <=? 5)%N; [discriminate | split; reflexivity].
Qed.

Lemma submit_rate_limit_witness :
  route_limits limiter submit_route = [per_minute 5] /\
  (forall (i : nat) (h : http),
     answers_to client (first_of_burst :: burst)
       (fst (serve (first_of_burst :: burst) fresh)) !! i = Some h ->
     limited h = (5 <=? i)%nat) /\
  (forall now E req st' w',
     fst (post_submit now E req (st', w')) = TooManyRequests ->
     http_status (fst (post_submit now E req (st', w'))) = 429 /\
     snd (snd (post_submit now E req (st', w'))) = w').
Proof.
  apply (submit_rate_limit (U:=cpython_ucd) client first_of_burst burst
           ∅ quiet).
  - reflexivity.
  - exact I.
  - intros x Hx _. cbn in Hx.
    repeat (destruct Hx as [<-|Hx]; [reflexivity|]). destruct Hx.
Defined.

(** Six requests of one client within a minute, on a server that has just
    started: five answers from the view function, then 429. *)
Lemma sixth_request_is_429 :
  map http_status (fst (serve (first_of_burst :: burst) fresh))
  = [200; 200; 200; 200; 200; 429].
Proof. vm_compute. reflexivity. Qed.

(** C9 as stated fails in its last part: no ceiling of 100 requests per hour
    holds across clients, nor for one client.  101 requests of 101 clients
    in one second are all served, and so are 101 requests of one client at
    five a minute. *)
Lemma no_ceiling_of_100_per_hour :
  length crowd = 101%nat /\
  forallb (fun x => (0 <=? at_time x) && (at_time x <? 3600)) crowd = true /\
  map http_status (fst (serve crowd fresh)) = repeat 200 101 /\
  length steady = 101%nat /\
  forallb (fun x => (0 <=? at_time x) && (at_time x <? 3600)) steady = true /\
  map http_status (fst (serve steady fresh)) = repeat 200 101.
Proof. vm_compute. repeat split. Qed.

(** * Beyond the claims: every body, every value *)

(** ** The checks on any JSON object *)

Section ObjectStages.
Context `{U : UnicodeDB}.

(** [if key in data: if not re.match(pat, data[key]): return r], on any
    object. *)
Lemma pattern_stage_obj {R B} (kv : list (str * json)) (key : str)
    (pat : regex) (r : R) (K : M R B) (w : world) :
  bind (contains (JObj kv) key) (fun has =>
    bind (when has (
            v <- getitem (JObj kv) key ;;
            m <- py_re_match pat v ;;
            when (negb m) (return_ r)))
         (fun _ => K)) w
  = match dict_get kv key with
    | None => K w
    | Some (JStr s) => if re_match pat s then K w else (Return r, w)
    | Some _ => (Raise TypeError, w)
    end.
Proof.
  unfold bind, contains, getitem, py_re_match, ret, raise, when, return_.
  destruct (dict_get kv key) as [[| | | |s| |]|]; try reflexivity.
  destruct (re_match pat s); reflexivity.
Qed.

Lemma country_stage_obj {R B} (kv : list (str * json)) (key : str) (r : R)
    (K : M R B) (w : world) :
  bind (contains (JObj kv) key) (fun has =>
    bind (if has
          then v <- getitem (JObj kv) key ;;
               ret (negb (eq_str v (lit "US")))
          else ret false)
         (fun ne => bind (when ne (return_ r)) (fun _ => K))) w
  = match dict_get kv key with
    | None => K w
    | Some v => if eq_str v (lit "US") then K w else (Return r, w)
    end.
Proof.
  unfold bind, contains, getitem, ret, when, return_.
  destruct (dict_get kv key) as [v|]; [|reflexivity].
  destruct (eq_str v (lit "US")); reflexivity.
Qed.

Lemma phone_stage_obj {B} (kv : list (str * json)) (r : Response)
    (K : M Response B) (w : world) :
  bind (contains (JObj kv) (lit "phone_number")) (fun has =>
    bind (when has (
            v <- getitem (JObj kv) (lit "phone_number") ;;
            phone_clean <- py_re_sub_empty (CNot CDigit) v ;;
            when (negb (Nat.eqb (length phone_clean) 10)) (return_ r)))
         (fun _ => K)) w
  = match dict_get kv (lit "phone_number") with
    | None => K w
    | Some (JStr s) =>
        if Nat.eqb (digit_count s) 10 then K w else (Return r, w)
    | Some _ => (Raise TypeError, w)
    end.
Proof.
  unfold bind, contains, getitem, py_re_sub_empty, ret, raise, when, return_.
  destruct (dict_get kv (lit "phone_number")) as [[| | | |s| |]|];
    try reflexivity.
  rewrite re_sub_nondigits_length.
  destruct (Nat.eqb (digit_count s) 10); reflexivity.
Qed.

Lemma birth_stage_obj {B} (E : env) (kv : list (str * json)) (r : Response)
    (K : M Response B) (w : world) :
  bind (contains (JObj kv) (lit "birth_date")) (fun has =>
    bind (when has (
            v <- getitem (JObj kv) (lit "birth_date") ;;
            birth <- py_strptime v ;;
            let today := today E in
            let age := year today - year birth
                       - Z.b2z (pair_lt (month today) (day today)
                                        (month birth) (day birth)) in
            when (age <? 18) (return_ r)))
         (fun _ => K)) w
  = match dict_get kv (lit "birth_date") with
    | None => K w
    | Some (JStr s) =>
        match strptime_Ymd s with
        | None => (Raise ValueError, w)
        | Some b => if age_on (today E) b <? 18 then (Return r, w) else K w
        end
    | Some _ => (Raise TypeError, w)
    end.
Proof.
  unfold bind, contains, getitem, py_strptime, ret, raise, when, return_,
    age_on.
  destruct (dict_get kv (lit "birth_date")) as [[| | | |s| |]|];
    try reflexivity.
  destruct (strptime_Ymd s) as [b|]; [|reflexivity].
  cbv zeta. unfold Z.b2z. destruct (_ <? 18); reflexivity.
Qed.

(** [validate_format] on any object: the verdict of its four checks. *)
Lemma validate_format_obj (kv : list (str * json)) (w : world) :
  validate_format (JObj kv) w =
  (match first_failure format_checks kv with
   | Pass => Return (true, None)
   | Reject msg => Return (false, Some msg)
   | Crash e => Raise e
   end, w).
Proof.
  unfold validate_format.
  rewrite !pattern_stage_obj, !country_stage_obj.
  unfold format_checks. cbn [first_failure].
  unfold check_ssn, check_birth_format, check_state, check_country,
    check_pattern.
  repeat case_match; simplify_eq; reflexivity.
Qed.

Lemma call_raise {R R'} (f : M R Empty_set) (w w' : world) (e : exn) :
  f w = (Raise e, w') -> call (R':=R') f w = (Raise e, w').
Proof. intros Hf. unfold call. now rewrite Hf. Qed.

Lemma first_failure_cons (c : check) (cs : list check)
    (kv : list (str * json)) :
  first_failure (c :: cs) kv =
  match c kv with
  | Pass => first_failure cs kv
  | v => v
  end.
Proof. reflexivity. Qed.

(** [submit_app] on any object. *)
Lemma submit_app_obj (E : env) (addr : str) (kv : list (str * json))
    (w : world) :
  submit_app E (mkRequest addr (Parsed (JObj kv))) w =
  match first_failure (object_checks (today E)) kv with
  | Reject msg => (error 400 msg, w)
  | Crash e => (submit_except e, w)
  | Pass => (relay E (JObj kv), mkWorld (sent w ++ [JObj kv]))
  end.
Proof.
  unfold submit_app, submit_try.
  rewrite (bind_next _ _ w (JObj kv) w) by reflexivity.
  unfold object_checks. cbn [app].
  rewrite (first_failure_cons check_presence),
    (first_failure_cons check_email), (first_failure_cons check_phone),
    (first_failure_cons (check_birth _)), (first_failure_cons check_postal).
  pose proof (presence_loop kv required_fields w) as Hloop.
  unfold check_presence at 1.
  destruct (List.find _ required_fields) as [f|].
  { erewrite bind_return by exact Hloop. reflexivity. }
  erewrite bind_next by exact Hloop.
  rewrite pattern_stage_obj, phone_stage_obj, birth_stage_obj,
    pattern_stage_obj.
  match goal with
  | |- context [bind (call ?f) ?k w] => set (T := bind (call f) k w)
  end.
  assert (HT : settle T =
    match first_failure format_checks kv with
    | Reject msg => (error 400 msg, w)
    | Crash e => (submit_except e, w)
    | Pass => (relay E (JObj kv), mkWorld (sent w ++ [JObj kv]))
    end).
  { subst T. pose proof (validate_format_obj kv w) as Hvf.
    destruct (first_failure format_checks kv) as [|msg|e].
    - rewrite (bind_next _ _ w _ w (call_return _ w w _ Hvf)).
      cbn [negb when]. unfold bind at 1, ret at 1.
      apply provider_stage.
    - rewrite (bind_next _ _ w _ w (call_return _ w w _ Hvf)). reflexivity.
    - rewrite (bind_raise _ _ w _ w (call_raise _ w w _ Hvf)). reflexivity. }
  clearbody T. clear Hloop.
  set (F := first_failure format_checks kv) in *. clearbody F.
  unfold check_email, check_phone, check_birth, check_postal, check_pattern.
  repeat case_match; simplify_eq; try reflexivity; try exact HT.
Qed.

End ObjectStages.

(** ** Bodies that are JSON but not objects *)

Lemma submit_app_list `{U : UnicodeDB} (E : env) (addr : str)
    (l : list json) (w : world) :
  submit_app E (mkRequest addr (Parsed (JArr l))) w =
  (if existsb (fun x => eq_str x (lit "name_first")) l
   then error 500 (lit "An unexpected error occurred")
   else error 400 (lit "Missing required field: First Name"), w).
Proof.
  unfold submit_app, submit_try.
  rewrite (bind_next _ _ w (JArr l) w) by reflexivity.
  cbn [required_fields for_each].
  unfold bind, contains, getitem, ret, raise, when, return_.
  destruct (existsb _ l); reflexivity.
Qed.

Lemma submit_app_string `{U : UnicodeDB} (E : env) (addr : str)
    (s : str) (w : world) :
  submit_app E (mkRequest addr (Parsed (JStr s))) w =
  (if is_substring (lit "name_first") s
   then error 500 (lit "An unexpected error occurred")
   else error 400 (lit "Missing required field: First Name"), w).
Proof.
  unfold submit_app, submit_try.
  rewrite (bind_next _ _ w (JStr s) w) by reflexivity.
  cbn [required_fields for_each].
  unfold bind, contains, getitem, ret, raise, when, return_.
  destruct (is_substring _ s); reflexivity.
Qed.

Lemma submit_app_scalar `{U : UnicodeDB} (E : env) (addr : str)
    (v : json) (w : world) :
  match v with JNull | JBool _ | JInt _ | JFloat _ => True | _ => False end ->
  submit_app E (mkRequest addr (Parsed v)) w =
  (error 500 (lit "An unexpected error occurred"), w).
Proof. destruct v; intros []; reflexivity. Qed.

(** ** What a verdict and an answer say about each other *)

Section Verdicts.
Context `{U : UnicodeDB}.

Lemma first_failure_app (cs ds : list check) (kv : list (str * json)) :
  first_failure (cs ++ ds) kv =
  match first_failure cs kv with
  | Pass => first_failure ds kv
  | v => v
  end.
Proof.
  induction cs as [|c cs IH]; [reflexivity|].
  cbn [app first_failure]. destruct (c kv); [exact IH | reflexivity..].
Qed.

Lemma first_failure_reject (cs : list check) (kv : list (str * json))
    (msg : str) :
  first_failure cs kv = Reject msg -> exists c, In c cs /\ c kv = Reject msg.
Proof.
  induction cs as [|c cs IH]; [discriminate|].
  cbn [first_failure]. destruct (c kv) eqn:Hc.
  - intros H. destruct (IH H) as (c' & Hin & Hc'). exists c'. split;
      [now right | exact Hc'].
  - intros [= <-]. exists c. split; [now left | exact Hc].
  - discriminate.
Qed.

Lemma check_pattern_reject key pat m kv msg :
  check_pattern key pat m kv = Reject msg ->
  msg = m /\
  exists s, dict_get kv key = Some (JStr s) /\ re_match pat s = false.
Proof.
  unfold check_pattern. intros H.
  repeat case_match; simplify_eq. split; [reflexivity | eauto].
Qed.

Lemma submit_except_status (e : exn) :
  submit_except e = error 400 (lit "Invalid data format") \/
  status (submit_except e) <> 400.
Proof.
  unfold submit_except.
  destruct (isinstance e ValueError); [now left|]. right.
  destruct (isinstance e ConnectionError); [discriminate|].
  destruct (isinstance e Timeout); discriminate.
Qed.

(** An answer 400 with a message other than "Invalid data format" comes
    from the check that rejected the body. *)
Lemma rejected_by (E : env) (addr : str) (kv : list (str * json))
    (w : world) (msg : str) :
  msg <> lit "Invalid data format" ->
  submit_app E (mkRequest addr (Parsed (JObj kv))) w = (error 400 msg, w) ->
  first_failure (object_checks (today E)) kv = Reject msg.
Proof.
  intros Hmsg. rewrite submit_app_obj.
  destruct (first_failure (object_checks (today E)) kv) as [|m|e].
  - intros [= _ Hw]. destruct (world_grows _ _ Hw).
  - intros [= ->]. reflexivity.
  - intros [= He]. destruct (submit_except_status e) as [Hv|Hs].
    + rewrite Hv in He. injection He as He. congruence.
    + rewrite He in Hs. now destruct Hs.
Qed.

End Verdicts.

(** ** Every JSON body *)

(** For every JSON-object body, whatever the types of its values,
    [submit_app] is decided by the first of its nine checks that does not
    pass: a check that rejects gives 400 with its message; a pattern, phone
    or birth-date check on a value that is not a string raises [TypeError]
    and gives 500; a birth date [strptime] does not parse raises
    [ValueError] and gives 400 "Invalid data format"; in these cases nothing
    is sent to the provider.  When every check passes the body is POSTed
    once, unchanged, and the provider's answer is relayed. *)
Theorem object_body_verdict `{U : UnicodeDB} (E : env) (addr : str)
    (kv : list (str * json)) (w : world) :
  submit_app E (mkRequest addr (Parsed (JObj kv))) w =
  match first_failure
          [ check_presence; check_email; check_phone; check_birth (today E);
            check_postal; check_ssn; check_birth_format; check_state;
            check_country ] kv with
  | Reject msg => (error 400 msg, w)
  | Crash TypeError => (error 500 (lit "An unexpected error occurred"), w)
  | Crash ValueError => (error 400 (lit "Invalid data format"), w)
  | Crash e => (submit_except e, w)
  | Pass => (relay E (JObj kv), mkWorld (sent w ++ [JObj kv]))
  end.
Proof.
  rewrite submit_app_obj. change (object_checks (today E)) with
    [ check_presence; check_email; check_phone; check_birth (today E);
      check_postal; check_ssn; check_birth_format; check_state;
      check_country ].
  destruct (first_failure _ kv) as [|msg|[]]; reflexivity.
Qed.

(** A number where the e-mail address should be: 500. *)
Lemma numeric_email_is_500 :
  submit_app (provider_does (Answer 201 (Some approved)))
             (mkRequest client (Parsed (JObj numeric_email))) quiet
  = (error 500 (lit "An unexpected error occurred"), quiet).
Proof. vm_compute. reflexivity. Qed.

(** A JSON body that is not an object never reaches the provider.  An array
    or a string is taken for a container of field names: unless it holds
    "name_first" (as an element, or as a substring) the answer is 400
    "Missing required field: First Name", otherwise indexing it with the
    name raises and the answer is 500.  null, a boolean and a number give
    500. *)
Theorem non_object_body `{U : UnicodeDB} (E : env) (addr : str) (w : world) :
  (forall l,
     submit_app E (mkRequest addr (Parsed (JArr l))) w =
     (if existsb (fun x => eq_str x (lit "name_first")) l
      then error 500 (lit "An unexpected error occurred")
      else error 400 (lit "Missing required field: First Name"), w)) /\
  (forall s,
     submit_app E (mkRequest addr (Parsed (JStr s))) w =
     (if is_substring (lit "name_first") s
      then error 500 (lit "An unexpected error occurred")
      else error 400 (lit "Missing required field: First Name"), w)) /\
  (forall v,
     (v = JNull \/ (exists b, v = JBool b) \/ (exists z, v = JInt z) \/
      (exists q, v = JFloat q)) ->
     submit_app E (mkRequest addr (Parsed v)) w =
     (error 500 (lit "An unexpected error occurred"), w)).
Proof.
  split; [|split].
  - intros l. apply submit_app_list.
  - intros s. apply submit_app_string.
  - intros v [->|[[b ->]|[[z ->]|[q ->]]]]; reflexivity.
Qed.

(** The provider is contacted exactly when the body is a JSON object that
    passes every check, and then exactly once, with the body as it came:
    whatever the request, the POSTs made are those made before, followed by
    that one body or by nothing. *)
Theorem provider_contacted_iff_checks_pass `{U : UnicodeDB} (E : env)
    (req : request) (w : world) :
  snd (submit_app E req w) =
  match content req with
  | Parsed (JObj kv) =>
      match first_failure (object_checks (today E)) kv with
      | Pass => mkWorld (sent w ++ [JObj kv])
      | _ => w
      end
  | _ => w
  end.
Proof.
  destruct req as [addr [| |v]]; cbn [content]; try reflexivity.
  destruct v as [| | | |s|l|kv]; try reflexivity.
  - now rewrite submit_app_string.
  - now rewrite submit_app_list.
  - rewrite submit_app_obj.
    destruct (first_failure _ kv); reflexivity.
Qed.

Lemma submit_except_shape (e : exn) :
  In (submit_except e)
     [ error 400 (lit "Invalid data format");
       error 503 (lit "Unable to connect to verification service");
       error 504 (lit "Request timed out. Please try again.");
       error 500 (lit "An unexpected error occurred") ].
Proof.
  unfold submit_except. cbn [In].
  destruct (isinstance e ValueError); [tauto|].
  destruct (isinstance e ConnectionError); [tauto|].
  destruct (isinstance e Timeout); tauto.
Qed.

(** Whatever the request and whatever the provider does, the answer of
    [submit_app] is one of these: an error 400 with some message; one of
    the fixed errors 500, 503 and 504; the status the provider answered
    with, when that is not 201, with "Alloy API error"; or 200 with an object
    of exactly the two keys [outcome] and [evaluation_token].  Every body
    other than the last is an object with the single key [error] and a
    string. *)
Theorem response_shape `{U : UnicodeDB} (E : env) (req : request)
    (w : world) :
  let r := fst (submit_app E req w) in
  (exists msg, r = error 400 msg) \/
  r = error 500 (lit "An unexpected error occurred") \/
  r = error 503 (lit "Unable to connect to verification service") \/
  r = error 504 (lit "Request timed out. Please try again.") \/
  (exists data code p,
      content req = Parsed data /\ alloy E data = Answer code p /\
      code <> 201 /\ r = error code (lit "Alloy API error")) \/
  (exists o t,
      r = mkResponse 200
            (JObj [(lit "outcome", o); (lit "evaluation_token", t)])).
Proof.
  assert (Hexc : forall e (r := submit_except e),
    (exists msg, r = error 400 msg) \/
    r = error 500 (lit "An unexpected error occurred") \/
    r = error 503 (lit "Unable to connect to verification service") \/
    r = error 504 (lit "Request timed out. Please try again.") \/
    (exists data code p,
        content req = Parsed data /\ alloy E data = Answer code p /\
        code <> 201 /\ r = error code (lit "Alloy API error")) \/
    (exists o t,
        r = mkResponse 200
              (JObj [(lit "outcome", o); (lit "evaluation_token", t)]))).
  { intros e r. subst r.
    destruct (submit_except_shape e) as [<-|[<-|[<-|[<-|[]]]]]; eauto 6. }
  destruct req as [addr [| |v]]; cbn [content];
    [right; left; reflexivity..|].
  destruct v as [| | | |s|l|kv];
    try (right; left; reflexivity).
  - rewrite submit_app_string. cbn [fst].
    destruct (is_substring _ s); eauto.
  - rewrite submit_app_list. cbn [fst].
    destruct (existsb _ l); eauto.
  - rewrite submit_app_obj.
    destruct (first_failure _ kv) as [|msg|e]; cbn [fst]; [|eauto|apply Hexc].
    unfold relay.
    destruct (alloy E (JObj kv)) as [code [j|]|e] eqn:Hreply; [| |apply Hexc].
    + destruct (Z.eqb_spec code 201) as [->|Hcode].
      * destruct (summary_outcome j); eauto 10.
      * do 4 right. left. exists (JObj kv), code, (Some j). auto.
    + destruct (Z.eqb_spec code 201) as [->|Hcode]; [eauto|].
      do 4 right. left. exists (JObj kv), code, None. auto.
Qed.

(** For a JSON-object body that passes every check: when the provider
    answers 201 with a body that is not JSON, [response.json()] raises a
    [ValueError] and the answer is 400 "Invalid data format", as for a bad
    birth date; when [requests.post] raises an exception that is none of
    [ValueError], [ConnectionError] and [Timeout] (too many redirects, a
    broken transfer), the answer is 500.  Either way the body was POSTed
    once. *)
Theorem provider_garbage_mapped `{U : UnicodeDB} (E : env) (addr : str)
    (kv : list (str * json)) (w : world) :
  first_failure (object_checks (today E)) kv = Pass ->
  let res := submit_app E (mkRequest addr (Parsed (JObj kv))) w in
  snd res = mkWorld (sent w ++ [JObj kv]) /\
  (alloy E (JObj kv) = Answer 201 None ->
     fst res = error 400 (lit "Invalid data format")) /\
  (forall e, alloy E (JObj kv) = Fails e ->
     isinstance e ValueError = false ->
     isinstance e ConnectionError = false ->
     isinstance e Timeout = false ->
     fst res = error 500 (lit "An unexpected error occurred")).
Proof.
  intros Hpass res. subst res. rewrite submit_app_obj, Hpass. cbn [fst snd].
  split; [reflexivity|]. unfold relay. split.
  - intros ->. reflexivity.
  - intros e -> Hv Hc Ht. unfold submit_except. now rewrite Hv, Hc, Ht.
Qed.

Lemma provider_garbage_mapped_witness :
  let res := submit_app (provider_does (Answer 201 None))
               (mkRequest client (Parsed (JObj (bindings good_applicant))))
               quiet in
  snd res = mkWorld (sent quiet ++ [JObj (bindings good_applicant)]) /\
  (alloy (provider_does (Answer 201 None))
         (JObj (bindings good_applicant)) = Answer 201 None ->
     fst res = error 400 (lit "Invalid data format")) /\
  (forall e,
     alloy (provider_does (Answer 201 None))
           (JObj (bindings good_applicant)) = Fails e ->
     isinstance e ValueError = false ->
     isinstance e ConnectionError = false ->
     isinstance e Timeout = false ->
     fst res = error 500 (lit "An unexpected error occurred")).
Proof.
  apply (provider_garbage_mapped (U:=cpython_ucd)
           (provider_does (Answer 201 None)) client
           (bindings good_applicant) quiet).
  vm_compute. reflexivity.
Defined.

(** ** [validate_format] on its own *)

(** [validate_format] on any JSON object never touches the outside world and
    looks only at the fields that are there, in the order SSN, birth date,
    state, country: it returns [(False, message)] for the first of them that
    is rejected and [(True, None)] when none is; it raises [TypeError] when
    it comes to an SSN, birth date or state that is not a string before
    anything is rejected.  In particular an object with none of the four
    fields is valid. *)
Theorem validate_format_verdict `{U : UnicodeDB} (kv : list (str * json))
    (w : world) :
  validate_format (JObj kv) w =
    (match first_failure
             [check_ssn; check_birth_format; check_state; check_country] kv
     with
     | Pass => Return (true, None)
     | Reject msg => Return (false, Some msg)
     | Crash e => Raise e
     end, w) /\
  (dict_get kv (lit "document_ssn") = None ->
   dict_get kv (lit "birth_date") = None ->
   dict_get kv (lit "address_state") = None ->
   dict_get kv (lit "address_country_code") = None ->
   validate_format (JObj kv) w = (Return (true, None), w)).
Proof.
  split; [apply validate_format_obj|].
  intros Hs Hb Hst Hc. rewrite validate_format_obj.
  unfold format_checks. cbn [first_failure].
  unfold check_ssn, check_birth_format, check_state, check_country,
    check_pattern.
  now rewrite Hs, Hb, Hst, Hc.
Qed.

(** ** What the matcher reaches, construct by construct *)

Section Matcher.
Context `{U : UnicodeDB}.

Lemma re_match_iff (r : regex) (s : str) :
  re_match r s = true <-> exists t, In t (ends r (length s) s).
Proof.
  unfold re_match. destruct (ends r (length s) s) as [|t l].
  - split; [discriminate | intros [t []]].
  - split; [exists t; now left | reflexivity].
Qed.

Lemma in_ends_seq (r1 r2 : regex) (n : nat) (s t : str) :
  In t (ends (r1 ⋅ r2)%re n s) <->
  exists m, In m (ends r1 n s) /\ In t (ends r2 n m).
Proof. cbn [ends]. apply in_flat_map. Qed.

Lemma in_ends_bol (n : nat) (s t : str) :
  In t (ends Bol n s) <-> t = s /\ length s = n.
Proof.
  cbn [ends]. destruct (Nat.eqb_spec (length s) n); cbn [In].
  - split; [intros [<-|[]]; auto | intros [-> _]; auto].
  - split; [intros [] | intros [_ H]; contradiction].
Qed.

Lemma in_ends_eol (n : nat) (s t : str) :
  In t (ends Eol n s) <-> t = s /\ line_end s.
Proof.
  unfold line_end. cbn [ends]. destruct s as [|c [|c' r]]; cbn [In].
  - split; [intros [<-|[]]; auto | intros [-> _]; auto].
  - destruct (N.eqb_spec c 10) as [->|Hne]; cbn [In].
    + split; [intros [<-|[]]; auto | intros [-> _]; auto].
    + split; [intros [] | intros [_ [H|H]]; congruence].
  - split; [intros [] | intros [_ [H|H]]; discriminate].
Qed.

Lemma in_ends_lit (y : cp) (n : nat) (s t : str) :
  In t (ends (Chars (CLit y)) n s) <-> s = y :: t.
Proof.
  cbn [ends in_set]. destruct s as [|x s']; [split; [intros []|discriminate]|].
  destruct (N.eqb_spec x y) as [->|Hne]; cbn [In].
  - split; [intros [<-|[]]; reflexivity | intros [= ->]; auto].
  - split; [intros [] | intros [= H _]; contradiction].
Qed.

(** A set repeated at least [lo] times, with no upper bound. *)
Lemma in_rep_ends_unbounded (p : cp -> bool) (s : str) :
  forall (lo : nat) (t : str),
  In t (rep_ends p lo None s) <->
  exists pre, s = pre ++ t /\ (lo <= length pre)%nat /\ forallb p pre = true.
Proof.
  induction s as [|x s IH]; intros lo t.
  - cbn [rep_ends]. rewrite app_nil_r. split.
    + destruct lo; [|intros []]. intros [<-|[]].
      exists []. repeat split. cbn. lia.
    + intros (pre & Hs & Hlo & _).
      symmetry in Hs. apply app_eq_nil in Hs as [-> ->].
      cbn in Hlo. destruct lo; [now left | lia].
  - cbn [rep_ends fmap option_fmap option_map]. rewrite in_app_iff. split.
    + intros [H|H].
      * destruct lo; [|destruct H]. destruct H as [<-|[]].
        exists []. repeat split. cbn. lia.
      * destruct (p x) eqn:Hx; [|destruct H].
        apply IH in H as (pre & -> & Hlo & Hp).
        exists (x :: pre). cbn [app length forallb]. rewrite Hx.
        repeat split; [lia | exact Hp].
    + intros ([|y pre] & Hs & Hlo & Hp).
      * left. cbn in Hs, Hlo. subst t.
        destruct lo; [now left | lia].
      * right. cbn [app] in Hs. injection Hs as <- ->.
        cbn [forallb] in Hp. apply andb_true_iff in Hp as [Hx Hp].
        rewrite Hx. apply IH. exists pre. cbn [length] in Hlo.
        repeat split; [lia | exact Hp].
Qed.

Lemma in_ends_plus (c : charset) (n : nat) (s t : str) :
  In t (ends (Rep c 1 None) n s) <->
  exists pre, pre <> [] /\ s = pre ++ t /\ forallb (in_set c) pre = true.
Proof.
  cbn [ends]. rewrite in_rep_ends_unbounded. split.
  - intros (pre & Hs & Hlo & Hp). exists pre. repeat split; auto.
    intros ->. cbn in Hlo. lia.
  - intros (pre & Hne & Hs & Hp). exists pre. repeat split; auto.
    destruct pre; [contradiction | cbn; lia].
Qed.

Lemma run_of_iff (c : charset) (n : nat) (s : str) :
  run_of c n s <->
  (n <= length s)%nat /\ forallb (in_set c) (firstn n s) = true /\
  line_end (skipn n s).
Proof.
  unfold run_of. split.
  - intros (d & e & -> & Hd & Hp & He). subst n.
    rewrite length_app, firstn_app, firstn_all, Nat.sub_diag, skipn_app,
      skipn_all, Nat.sub_diag.
    cbn [firstn skipn app]. rewrite app_nil_r.
    repeat split; [lia | exact Hp | exact He].
  - intros (Hle & Hp & He). exists (firstn n s), (skipn n s).
    rewrite firstn_skipn, length_firstn. repeat split; [lia | exact Hp | exact He].
Qed.

(** What [^c{n}$] accepts. *)
Lemma match_run_anchored (c : charset) (n : nat) (s : str) :
  re_match (Bol ⋅ Rep c n (Some n) ⋅ Eol)%re s = true <-> run_of c n s.
Proof.
  rewrite run_of_iff. unfold re_match, line_end. cbn [ends].
  rewrite Nat.eqb_refl. cbn [flat_map]. rewrite app_nil_r, rep_ends_exact.
  destruct (Nat.leb_spec n (length s)) as [Hle|Hlt]; cbn [andb].
  - destruct (forallb (in_set c) (firstn n s)); cbn [flat_map].
    + rewrite app_nil_r.
      destruct (skipn n s) as [|x [|x' r]] eqn:Hrest.
      * split; [tauto | reflexivity].
      * destruct (N.eqb_spec x 10) as [->|Hne].
        -- split; [tauto | reflexivity].
        -- split; [discriminate|]. intros (_ & _ & [H|H]); congruence.
      * split; [discriminate|]. intros (_ & _ & [H|H]); discriminate.
    + split; [discriminate|]. intros (_ & H & _); discriminate.
  - split; [discriminate|]. intros (H & _); lia.
Qed.

(** What the e-mail pattern accepts. *)
Lemma match_email (s : str) :
  re_match email_pattern s = true <-> email_shape s.
Proof.
  rewrite re_match_iff. unfold email_pattern, email_shape. split.
  - intros (t & Ht).
    apply in_ends_seq in Ht as (s0 & H0 & Ht).
    apply in_ends_bol in H0 as [-> _].
    apply in_ends_seq in Ht as (s1 & H1 & Ht).
    apply in_ends_plus in H1 as (a & Ha & -> & Hpa).
    apply in_ends_seq in Ht as (s2 & H2 & Ht).
    apply in_ends_lit in H2 as ->.
    apply in_ends_seq in Ht as (s3 & H3 & Ht).
    apply in_ends_plus in H3 as (b & Hb & -> & Hpb).
    apply in_ends_seq in Ht as (s4 & H4 & Ht).
    apply in_ends_lit in H4 as ->.
    apply in_ends_seq in Ht as (s5 & H5 & Ht).
    apply in_ends_plus in H5 as (c & Hc & -> & Hpc).
    apply in_ends_eol in Ht as [-> He].
    exists a, b, c, s5.
    split; [reflexivity|]. split; [exact Ha|]. split; [exact Hb|].
    split; [exact Hc|]. split; [|exact He].
    unfold cp in *. rewrite !List.forallb_app, Hpa, Hpb, Hpc. reflexivity.
  - intros (a & b & c & e & -> & Ha & Hb & Hc & Hp & He).
    rewrite !List.forallb_app, !andb_true_iff in Hp.
    destruct Hp as (Hpa & Hpb & Hpc).
    exists e.
    apply in_ends_seq. eexists. split; [apply in_ends_bol; split; reflexivity|].
    apply in_ends_seq. exists ([64%N] ++ b ++ [46%N] ++ c ++ e). split.
    { apply in_ends_plus. exists a. auto. }
    apply in_ends_seq. exists (b ++ [46%N] ++ c ++ e). split.
    { apply in_ends_lit. reflexivity. }
    apply in_ends_seq. exists ([46%N] ++ c ++ e). split.
    { apply in_ends_plus. exists b. auto. }
    apply in_ends_seq. exists (c ++ e). split.
    { apply in_ends_lit. reflexivity. }
    apply in_ends_seq. exists e. split.
    { apply in_ends_plus. exists c. auto. }
    apply in_ends_eol. auto.
Qed.

End Matcher.

(** ** One check at a time *)

Section Deciding.
Context `{U : UnicodeDB}.

Lemma check_phone_reject kv msg :
  check_phone kv = Reject msg -> msg = lit "Phone number must be 10 digits".
Proof. unfold check_phone. intros H. repeat case_match; congruence. Qed.

Lemma check_birth_reject t kv msg :
  check_birth t kv = Reject msg -> msg = lit "Must be at least 18 years old".
Proof. unfold check_birth. intros H. repeat case_match; congruence. Qed.

Lemma check_country_reject kv msg :
  check_country kv = Reject msg -> msg = lit "Country must be 'US'".
Proof. unfold check_country. intros H. repeat case_match; congruence. Qed.

(** When the checks before [c] pass and no check after [c] has the message
    [m], the answer is 400 with [m] exactly when [c] rejects. *)
Lemma check_decides (E : env) (addr : str) (kv : list (str * json))
    (w : world) (before : list check) (c : check) (after : list check)
    (m : str) :
  object_checks (today E) = before ++ c :: after ->
  first_failure before kv = Pass ->
  m <> lit "Invalid data format" ->
  (forall m', c kv = Reject m' -> m' = m) ->
  (forall d, In d after -> d kv <> Reject m) ->
  submit_app E (mkRequest addr (Parsed (JObj kv))) w = (error 400 m, w)
  <-> c kv = Reject m.
Proof.
  intros Hsplit Hbefore Hm Hc Hafter. split.
  - intros Hres. apply (rejected_by _ _ _ _ _ Hm) in Hres.
    rewrite Hsplit, first_failure_app, Hbefore in Hres.
    cbn [first_failure] in Hres.
    destruct (c kv) as [|m'|e] eqn:Hck; [|congruence|discriminate].
    apply first_failure_reject in Hres as (d & Hd & Hdk).
    destruct (Hafter d Hd Hdk).
  - intros Hck. rewrite submit_app_obj, Hsplit, first_failure_app, Hbefore.
    cbn [first_failure]. rewrite Hck. reflexivity.
Qed.

End Deciding.

(** Refutes [H : d kv = Reject m] for a check [d] whose message is not [m]. *)
Ltac other_message H :=
  unfold check_email, check_postal, check_ssn, check_birth_format,
    check_state in H;
  first [ apply check_pattern_reject in H as [H _]
        | apply check_phone_reject in H
        | apply check_birth_reject in H
        | apply check_country_reject in H ];
  vm_compute in H; discriminate H.

Ltac none_after :=
  let d := fresh "d" in let Hd := fresh "Hd" in let H := fresh "H" in
  intros d Hd H; cbn [In] in Hd;
  repeat (destruct Hd as [<-|Hd]; [other_message H|]);
  destruct Hd.

(** For a JSON-object body that passes the presence check, with a string
    for e-mail address: the answer is 400 "Invalid email format" exactly
    when the address is not of the form local\@domain.tld, three non-empty
    parts free of whitespace and \@ (the domain and the last part may hold
    further dots), possibly followed by one line feed. *)
Theorem email_check `{U : UnicodeDB} (E : env) (addr : str)
    (kv : list (str * json)) (w : world) (s : str) :
  check_presence kv = Pass ->
  dict_get kv (lit "email_address") = Some (JStr s) ->
  submit_app E (mkRequest addr (Parsed (JObj kv))) w =
    (error 400 (lit "Invalid email format"), w)
  <-> ~ email_shape s.
Proof.
  intros Hpres Hmail.
  rewrite (check_decides E addr kv w [check_presence] check_email
             [ check_phone; check_birth (today E); check_postal; check_ssn;
               check_birth_format; check_state; check_country ]).
  - unfold check_email, check_pattern. rewrite Hmail, <- match_email.
    destruct (re_match email_pattern s); split; congruence.
  - reflexivity.
  - cbn [first_failure]. now rewrite Hpres.
  - vm_compute. discriminate.
  - intros m' H. now apply check_pattern_reject in H.
  - none_after.
Qed.

Lemma email_check_witness :
  submit_app (provider_does (Answer 201 (Some approved)))
             (mkRequest client (Parsed (JObj (bindings good_applicant))))
             quiet =
    (error 400 (lit "Invalid email format"), quiet)
  <-> ~ email_shape (lit "ada@example.com").
Proof.
  apply (email_check (U:=cpython_ucd)
           (provider_does (Answer 201 (Some approved))) client
           (bindings good_applicant) quiet (lit "ada@example.com"));
    vm_compute; reflexivity.
Defined.

(** For a JSON-object body that passes the checks up to the birth date,
    with a string for postal code: the answer is 400 "Postal code must be 5
    digits" exactly when the code is not five digits, possibly followed by
    one line feed. *)
Theorem postal_check `{U : UnicodeDB} (E : env) (addr : str)
    (kv : list (str * json)) (w : world) (s : str) :
  first_failure [ check_presence; check_email; check_phone;
                  check_birth (today E) ] kv = Pass ->
  dict_get kv (lit "address_postal_code") = Some (JStr s) ->
  submit_app E (mkRequest addr (Parsed (JObj kv))) w =
    (error 400 (lit "Postal code must be 5 digits"), w)
  <-> ~ run_of CDigit 5 s.
Proof.
  intros Hbefore Hfield.
  rewrite (check_decides E addr kv w
             [ check_presence; check_email; check_phone;
               check_birth (today E) ]
             check_postal
             [ check_ssn; check_birth_format; check_state; check_country ]
             _ eq_refl Hbefore).
  - unfold check_postal, check_pattern.
    rewrite Hfield, <- match_run_anchored.
    change (Bol ⋅ Rep CDigit 5 (Some 5%nat) ⋅ Eol)%re with postal_pattern.
    destruct (re_match postal_pattern s); split; congruence.
  - vm_compute. discriminate.
  - intros m' H. now apply check_pattern_reject in H.
  - none_after.
Qed.

Lemma postal_check_witness :
  submit_app (provider_does (Answer 201 (Some approved)))
             (mkRequest client (Parsed (JObj (bindings good_applicant))))
             quiet =
    (error 400 (lit "Postal code must be 5 digits"), quiet)
  <-> ~ run_of CDigit 5 (lit "02134").
Proof.
  apply (postal_check (U:=cpython_ucd)
           (provider_does (Answer 201 (Some approved))) client
           (bindings good_applicant) quiet (lit "02134"));
    vm_compute; reflexivity.
Defined.

(** For a JSON-object body that passes the checks up to the birth-date
    pattern, with a string for state: the answer is 400 "State must be a
    2-letter code (e.g., NY, CA)" exactly when the state is not two letters
    from A to Z, possibly followed by one line feed. *)
Theorem state_check `{U : UnicodeDB} (E : env) (addr : str)
    (kv : list (str * json)) (w : world) (s : str) :
  first_failure [ check_presence; check_email; check_phone;
                  check_birth (today E); check_postal; check_ssn;
                  check_birth_format ] kv = Pass ->
  dict_get kv (lit "address_state") = Some (JStr s) ->
  submit_app E (mkRequest addr (Parsed (JObj kv))) w =
    (error 400 (lit "State must be a 2-letter code (e.g., NY, CA)"), w)
  <-> ~ run_of (CRange 65 90) 2 s.
Proof.
  intros Hbefore Hfield.
  rewrite (check_decides E addr kv w
             [ check_presence; check_email; check_phone;
               check_birth (today E); check_postal; check_ssn;
               check_birth_format ]
             check_state [check_country] _ eq_refl Hbefore).
  - unfold check_state, check_pattern.
    rewrite Hfield, <- match_run_anchored.
    change (Bol ⋅ Rep (CRange 65 90) 2 (Some 2%nat) ⋅ Eol)%re
      with state_pattern.
    destruct (re_match state_pattern s); split; congruence.
  - vm_compute. discriminate.
  - intros m' H. now apply check_pattern_reject in H.
  - none_after.
Qed.

Lemma state_check_witness :
  submit_app (provider_does (Answer 201 (Some approved)))
             (mkRequest client (Parsed (JObj (bindings good_applicant))))
             quiet =
    (error 400 (lit "State must be a 2-letter code (e.g., NY, CA)"), quiet)
  <-> ~ run_of (CRange 65 90) 2 (lit "NY").
Proof.
  apply (state_check (U:=cpython_ucd)
           (provider_does (Answer 201 (Some approved))) client
           (bindings good_applicant) quiet (lit "NY"));
    vm_compute; reflexivity.
Defined.

(** The country check comes last and compares with the string US and
    nothing else: for a JSON-object body that passes the eight checks before
    it, the answer is 400 "Country must be 'US'" exactly when the country
    code is any other value (us, USA, a number); when it is US the body goes
    to the provider. *)
Theorem country_check `{U : UnicodeDB} (E : env) (addr : str)
    (kv : list (str * json)) (w : world) (v : json) :
  first_failure [ check_presence; check_email; check_phone;
                  check_birth (today E); check_postal; check_ssn;
                  check_birth_format; check_state ] kv = Pass ->
  dict_get kv (lit "address_country_code") = Some v ->
  (submit_app E (mkRequest addr (Parsed (JObj kv))) w =
     (error 400 (lit "Country must be 'US'"), w)
   <-> v <> JStr (lit "US")) /\
  (v = JStr (lit "US") ->
   submit_app E (mkRequest addr (Parsed (JObj kv))) w =
     (relay E (JObj kv), mkWorld (sent w ++ [JObj kv]))).
Proof.
  intros Hbefore Hfield. split.
  - rewrite (check_decides E addr kv w
               [ check_presence; check_email; check_phone;
                 check_birth (today E); check_postal; check_ssn;
                 check_birth_format; check_state ]
               check_country [] _ eq_refl Hbefore).
    + unfold check_country. rewrite Hfield. unfold eq_str, str_eqb.
      destruct v as [| | | |s| |]; try (split; congruence).
      destruct (bool_decide_reflect (s = lit "US")) as [->|Hne];
        split; congruence.
    + vm_compute. discriminate.
    + apply check_country_reject.
    + intros d [].
  - intros ->. rewrite submit_app_obj.
    change (object_checks (today E)) with
      ([ check_presence; check_email; check_phone; check_birth (today E);
         check_postal; check_ssn; check_birth_format; check_state ]
       ++ [check_country]).
    rewrite first_failure_app, Hbefore. cbn [first_failure].
    unfold check_country. rewrite Hfield. reflexivity.
Qed.

Lemma country_check_witness :
  (submit_app (provider_does (Answer 201 (Some approved)))
              (mkRequest client (Parsed (JObj (bindings good_applicant))))
              quiet =
     (error 400 (lit "Country must be 'US'"), quiet)
   <-> JStr (lit "US") <> JStr (lit "US")) /\
  (JStr (lit "US") = JStr (lit "US") ->
   submit_app (provider_does (Answer 201 (Some approved)))
              (mkRequest client (Parsed (JObj (bindings good_applicant))))
              quiet =
     (relay (provider_does (Answer 201 (Some approved)))
            (JObj (bindings good_applicant)),
      mkWorld (sent quiet ++ [JObj (bindings good_applicant)]))).
Proof.
  apply (country_check (U:=cpython_ucd)
           (provider_does (Answer 201 (Some approved))) client
           (bindings good_applicant) quiet (JStr (lit "US")));
    vm_compute; reflexivity.
Defined.

(** For a JSON-object body that passes the presence, e-mail and phone
    checks and whose birth date [strptime] parses to [b]: the answer is 400
    "Must be at least 18 years old" exactly when [b] comes after the day 18
    years before today (same month and day).  Someone born on 29 February is
    18 on 1 March of a common year, not on 28 February. *)
Theorem age_check `{U : UnicodeDB} (E : env) (addr : str)
    (kv : list (str * json)) (w : world) (s : str) (b : date) :
  first_failure [check_presence; check_email; check_phone] kv = Pass ->
  dict_get kv (lit "birth_date") = Some (JStr s) ->
  strptime_Ymd s = Some b ->
  submit_app E (mkRequest addr (Parsed (JObj kv))) w =
    (error 400 (lit "Must be at least 18 years old"), w)
  <-> later_than b (years_before 18 (today E)).
Proof.
  intros Hbefore Hfield Hparse.
  rewrite (check_decides E addr kv w
             [check_presence; check_email; check_phone]
             (check_birth (today E))
             [ check_postal; check_ssn; check_birth_format; check_state;
               check_country ]
             _ eq_refl Hbefore).
  - unfold check_birth. rewrite Hfield, Hparse.
    unfold later_than, years_before, age_on, pair_lt. cbn [year month day].
    destruct (Z.ltb_spec (month (today E)) (month b));
      destruct (Z.eqb_spec (month (today E)) (month b));
      destruct (Z.ltb_spec (day (today E)) (day b)); cbn [orb andb];
      match goal with
      | |- context [?x <? 18] => destruct (Z.ltb_spec x 18)
      end; split; try congruence; try lia; intros; exfalso; lia.
  - vm_compute. discriminate.
  - apply check_birth_reject.
  - none_after.
Qed.

Lemma age_check_witness :
  submit_app (provider_does (Answer 201 (Some approved)))
             (mkRequest client (Parsed (JObj (bindings just_eighteen))))
             quiet =
    (error 400 (lit "Must be at least 18 years old"), quiet)
  <-> later_than (mkDate 2006 6 15) (years_before 18 (mkDate 2024 6 15)).
Proof.
  apply (age_check (U:=cpython_ucd)
           (provider_does (Answer 201 (Some approved))) client
           (bindings just_eighteen) quiet (lit "2006-06-15")
           (mkDate 2006 6 15));
    vm_compute; reflexivity.
Defined.

(** ** What the checks look at *)

Lemma find_ext_in {A} (p q : A -> bool) (l : list A) :
  (forall x, In x l -> p x = q x) -> List.find p l = List.find q l.
Proof.
  induction l as [|x l IH]; intros H; [reflexivity|].
  cbn [List.find]. rewrite (H x (or_introl eq_refl)).
  destruct (q x); [reflexivity|]. apply IH. intros y Hy. apply H. now right.
Qed.

(** The checks read only this of a JSON-object body: which of the 11
    required fields are missing or empty, and the values of the seven fields
    with a format (e-mail, phone, birth date, postal code, SSN, state,
    country).  Two bodies that agree on that get the same verdict, and, when
    it is not a pass, the same answer: names, the first address line and the
    city are free text, and any other field, [address_line_2] included, is
    ignored. *)
Theorem checks_look_at `{U : UnicodeDB} (E : env) (addr : str)
    (kv1 kv2 : list (str * json)) (w : world) :
  (forall f, In f required_fields -> absent kv1 f = absent kv2 f) ->
  (forall k, In k checked_fields -> dict_get kv1 k = dict_get kv2 k) ->
  first_failure (object_checks (today E)) kv1 =
    first_failure (object_checks (today E)) kv2 /\
  (first_failure (object_checks (today E)) kv1 <> Pass ->
   submit_app E (mkRequest addr (Parsed (JObj kv1))) w =
   submit_app E (mkRequest addr (Parsed (JObj kv2))) w).
Proof.
  intros Habs Hget.
  assert (Heq : first_failure (object_checks (today E)) kv1 =
                first_failure (object_checks (today E)) kv2).
  { unfold object_checks, format_checks. cbn [app first_failure].
    unfold check_presence, check_email, check_phone, check_birth,
      check_postal, check_ssn, check_birth_format, check_state,
      check_country, check_pattern.
    rewrite (find_ext_in _ _ _ Habs).
    rewrite !Hget by (cbn; tauto). reflexivity. }
  split; [exact Heq|]. intros Hfail.
  rewrite !submit_app_obj, <- Heq.
  destruct (first_failure (object_checks (today E)) kv1);
    [contradiction | reflexivity..].
Qed.

Lemma checks_look_at_witness :
  first_failure (object_checks (today (provider_does (Fails Timeout))))
                renamed_applicant =
    first_failure (object_checks (today (provider_does (Fails Timeout))))
                  (bindings good_applicant) /\
  (first_failure (object_checks (today (provider_does (Fails Timeout))))
                 renamed_applicant <> Pass ->
   submit_app (provider_does (Fails Timeout))
              (mkRequest client (Parsed (JObj renamed_applicant))) quiet =
   submit_app (provider_does (Fails Timeout))
              (mkRequest client (Parsed (JObj (bindings good_applicant))))
              quiet).
Proof.
  apply (checks_look_at (U:=cpython_ucd) (provider_does (Fails Timeout))
           client renamed_applicant (bindings good_applicant) quiet).
  - intros f Hf. cbn [required_fields In] in Hf.
    repeat (destruct Hf as [<-|Hf]; [reflexivity|]). destruct Hf.
  - intros k Hk. cbn [checked_fields In] in Hk.
    repeat (destruct Hk as [<-|Hk]; [reflexivity|]). destruct Hk.
Defined.

(** ** The life of a counter *)

(** One request to [/submit] and the counter of its address.  If the
    counter is idle (never started, or expired) the request is served and a
    window of 60 seconds opens.  If the window is open, it closes when it
    was going to: a request, served or refused, never extends it, and the
    request is refused exactly when five were counted before it.  The
    counters of all other addresses are left as they were. *)
Theorem counter_lifecycle `{U : UnicodeDB} (now : Z) (E : env)
    (req : request) (st : storage) (w : world) :
  let k := counter_key (remote_addr req) (per_minute 5) in
  let res := post_submit now E req (st, w) in
  (idle st (remote_addr req) now ->
     (exists r, fst res = Served r) /\
     fst (snd res) !! k = Some (1%N, now + 60)) /\
  (forall c exp, st !! k = Some (c, exp) -> now < exp ->
     (exists c', fst (snd res) !! k = Some (c', exp)) /\
     (fst res = TooManyRequests <-> (5 <= c)%N)) /\
  (forall k', k' <> k -> fst (snd res) !! k' = st !! k').
Proof.
  intros k res. subst res.
  pose proof (post_submit_counter now E req st w) as Hpost.
  cbv zeta in Hpost. fold k in Hpost. rewrite Hpost. clear Hpost.
  split; [|split].
  - unfold idle. fold k. intros Hidle.
    destruct (st !! k) as [[c exp]|].
    + apply Z.leb_le in Hidle. rewrite Hidle. cbn.
      split; [eauto | apply lookup_insert_eq].
    + cbn. split; [eauto | apply lookup_insert_eq].
  - intros c exp Hk Hlive. rewrite Hk.
    apply Z.leb_gt in Hlive. rewrite Hlive.
    destruct (N.leb_spec (c + 1) 5) as [Hle|Hgt]; cbn [fst snd].
    + split; [eexists; apply lookup_insert_eq|].
      split; [discriminate | lia].
    + split; [eexists; apply lookup_insert_eq|].
      split; [lia | reflexivity].
  - intros k' Hne.
    destruct (_ <=? 5)%N; cbn [fst snd]; now rewrite lookup_insert_ne.
Qed.

(** ** Dates written out and read back *)

Section RoundTrip.
Context `{U : UnicodeDB}.
Hypothesis HU : ascii_compatible U.

Lemma to_decimal_digit (a : Z) :
  0 <= a <= 9 -> to_decimal (digit a) = Some (Z.to_N a).
Proof.
  intros Ha. unfold digit.
  rewrite (proj1 (HU (48 + Z.to_N a)%N ltac:(lia))). unfold ascii_decimal.
  destruct (N.leb_spec 48 (48 + Z.to_N a)); [|lia].
  destruct (N.leb_spec (48 + Z.to_N a) 57); [|lia].
  cbn [andb]. f_equal. lia.
Qed.

Lemma any_decimal_digit (a : Z) (t : str) :
  0 <= a <= 9 -> any_decimal (digit a :: t) = [(a, t)].
Proof.
  intros Ha. unfold any_decimal. rewrite (to_decimal_digit a Ha).
  rewrite Z2N.id by lia. reflexivity.
Qed.

Lemma ascii_digit_digit (lo hi : N) (a : Z) (t : str) :
  0 <= a <= 9 ->
  ascii_digit lo hi (digit a :: t) =
  if (Z.of_N lo <=? a) && (a <=? Z.of_N hi) then [(a, t)] else [].
Proof.
  intros Ha. unfold ascii_digit, digit.
  destruct (N.leb_spec (48 + lo) (48 + Z.to_N a));
    destruct (N.leb_spec (48 + Z.to_N a) (48 + hi));
    destruct (Z.leb_spec (Z.of_N lo) a);
    destruct (Z.leb_spec a (Z.of_N hi)); cbn [andb]; try lia; try reflexivity.
  replace (48 + Z.to_N a - 48)%N with (Z.to_N a) by lia.
  rewrite Z2N.id by lia. reflexivity.
Qed.

Lemma is_decimal_digit (a : Z) : 0 <= a <= 9 -> is_decimal (digit a) = true.
Proof.
  intros Ha. unfold is_decimal. now rewrite (to_decimal_digit a Ha).
Qed.

Lemma group_Y_four_digits (y : Z) (t : str) :
  0 <= y <= 9999 -> group_Y (four_digits y ++ t) = [(y, t)].
Proof.
  intros Hy. unfold group_Y, two, four_digits. cbn [app].
  rewrite (any_decimal_digit (y / 1000)) by (Z.div_mod_to_equations; lia).
  cbn [flat_map map app].
  rewrite (any_decimal_digit (y / 100 mod 10)) by (Z.div_mod_to_equations; lia).
  cbn [flat_map map app].
  rewrite (any_decimal_digit (y / 10 mod 10)) by (Z.div_mod_to_equations; lia).
  cbn [flat_map map app].
  rewrite (any_decimal_digit (y mod 10)) by (Z.div_mod_to_equations; lia).
  cbn [flat_map map app].
  do 2 f_equal. Z.div_mod_to_equations. lia.
Qed.

(** Two digits read by a pair of digit readers that accept them. *)
Lemma two_two_digits (f g : str -> list (Z * str)) (n : Z) (t : str) :
  f (two_digits n ++ t) = [(n / 10, digit (n mod 10) :: t)] ->
  g (digit (n mod 10) :: t) = [(n mod 10, t)] ->
  two f g (two_digits n ++ t) = [(n, t)].
Proof.
  intros Hf Hg. unfold two. rewrite Hf. cbn [flat_map]. rewrite Hg.
  cbn [map app]. do 2 f_equal. Z.div_mod_to_equations. lia.
Qed.

Lemma ascii_digit_two_digits (lo hi : N) (n : Z) (t : str) :
  0 <= n <= 99 ->
  ascii_digit lo hi (two_digits n ++ t) =
  if (Z.of_N lo <=? n / 10) && (n / 10 <=? Z.of_N hi)
  then [(n / 10, digit (n mod 10) :: t)] else [].
Proof.
  intros Hn. unfold two_digits. cbn [app].
  apply ascii_digit_digit. Z.div_mod_to_equations. lia.
Qed.

Lemma two_ascii (lo1 hi1 lo2 hi2 : N) (n : Z) (t : str) :
  0 <= n <= 99 ->
  two (ascii_digit lo1 hi1) (ascii_digit lo2 hi2) (two_digits n ++ t) =
  if (Z.of_N lo1 <=? n / 10) && (n / 10 <=? Z.of_N hi1) &&
     ((Z.of_N lo2 <=? n mod 10) && (n mod 10 <=? Z.of_N hi2))
  then [(n, t)] else [].
Proof.
  intros Hn. unfold two. rewrite (ascii_digit_two_digits _ _ _ _ Hn).
  destruct ((Z.of_N lo1 <=? n / 10) && (n / 10 <=? Z.of_N hi1));
    [|reflexivity].
  cbn [flat_map andb].
  rewrite ascii_digit_digit by (Z.div_mod_to_equations; lia).
  destruct ((Z.of_N lo2 <=? n mod 10) && (n mod 10 <=? Z.of_N hi2));
    [|reflexivity].
  cbn [map app]. do 2 f_equal. Z.div_mod_to_equations. lia.
Qed.

Lemma two_ascii_any (lo hi : N) (n : Z) (t : str) :
  0 <= n <= 99 ->
  two (ascii_digit lo hi) any_decimal (two_digits n ++ t) =
  if (Z.of_N lo <=? n / 10) && (n / 10 <=? Z.of_N hi)
  then [(n, t)] else [].
Proof.
  intros Hn. unfold two. rewrite (ascii_digit_two_digits _ _ _ _ Hn).
  destruct ((Z.of_N lo <=? n / 10) && (n / 10 <=? Z.of_N hi));
    [|reflexivity].
  cbn [flat_map].
  rewrite any_decimal_digit by (Z.div_mod_to_equations; lia).
  cbn [map app]. do 2 f_equal. Z.div_mod_to_equations. lia.
Qed.

Lemma expect_digit (c : N) (a : Z) (t : str) :
  (c < 48)%N -> expect c (digit a :: t) = [].
Proof.
  intros Hc. unfold expect, digit.
  destruct (N.eqb_spec (48 + Z.to_N a) c); [lia | reflexivity].
Qed.

(** The month, two digits and a hyphen: one way on. *)
Lemma month_stage {X} (G : Z -> str -> list X) (m : Z) (t : str) :
  1 <= m <= 12 ->
  flat_map (fun '(m', s3) => flat_map (G m') (expect 45 s3))
           (group_m (two_digits m ++ 45%N :: t))
  = G m t.
Proof.
  intros Hm. unfold group_m.
  rewrite !two_ascii, ascii_digit_two_digits by lia.
  change (Z.of_N 0) with 0. change (Z.of_N 1) with 1.
  change (Z.of_N 2) with 2. change (Z.of_N 9) with 9.
  assert (Hq : m / 10 = 0 \/ m / 10 = 1) by (Z.div_mod_to_equations; lia).
  assert (Hr : 0 <= m mod 10 <= 9) by (Z.div_mod_to_equations; lia).
  destruct Hq as [Hq|Hq]; rewrite Hq.
  - assert (H1 : 1 <= m mod 10) by (Z.div_mod_to_equations; lia).
    destruct (Z.leb_spec 1 (m mod 10)); [|lia].
    destruct (Z.leb_spec (m mod 10) 9); [|lia].
    cbn [Z.leb Z.compare Pos.compare Pos.compare_cont andb app flat_map
         expect].
    change (N.eqb 45 45) with true.
    cbn [flat_map]. now rewrite !app_nil_r.
  - assert (H2 : m mod 10 <= 2) by (Z.div_mod_to_equations; lia).
    destruct (Z.leb_spec 0 (m mod 10)); [|lia].
    destruct (Z.leb_spec (m mod 10) 2); [|lia].
    cbn [Z.leb Z.compare Pos.compare Pos.compare_cont andb app flat_map].
    rewrite expect_digit by lia.
    cbn [expect]. change (N.eqb 45 45) with true.
    cbn [flat_map]. now rewrite !app_nil_r.
Qed.

(** The day, two digits at the end: the first way the matcher finds reads
    them both. *)
Lemma day_stage (dd : Z) :
  1 <= dd <= 31 ->
  exists more, group_d (two_digits dd) = (dd, []) :: more.
Proof.
  intros Hd. unfold group_d.
  rewrite <- (app_nil_r (two_digits dd)).
  rewrite !two_ascii, two_ascii_any by lia.
  change (Z.of_N 0) with 0. change (Z.of_N 1) with 1.
  change (Z.of_N 2) with 2. change (Z.of_N 3) with 3.
  change (Z.of_N 9) with 9.
  assert (Hq : 0 <= dd / 10 <= 3) by (Z.div_mod_to_equations; lia).
  assert (Hr : 0 <= dd mod 10 <= 9) by (Z.div_mod_to_equations; lia).
  destruct (Z.leb_spec 3 (dd / 10)); destruct (Z.leb_spec (dd / 10) 3);
    destruct (Z.leb_spec 0 (dd mod 10)); destruct (Z.leb_spec (dd mod 10) 1);
    destruct (Z.leb_spec 1 (dd / 10)); destruct (Z.leb_spec (dd / 10) 2);
    destruct (Z.leb_spec 0 (dd / 10)); destruct (Z.leb_spec (dd / 10) 0);
    destruct (Z.leb_spec 1 (dd mod 10)); destruct (Z.leb_spec (dd mod 10) 9);
    cbn [andb app];
    try (exfalso; Z.div_mod_to_equations; lia); eauto.
Qed.

Lemma strptime_isoformat (d : date) :
  valid_date (year d) (month d) (day d) = true ->
  strptime_Ymd (isoformat d) = Some d.
Proof.
  intros Hvalid. pose proof Hvalid as Hv.
  unfold valid_date in Hv. rewrite !andb_true_iff, !Z.leb_le in Hv.
  destruct Hv as (((((Hy1 & Hy2) & Hm1) & Hm2) & Hd1) & Hd2).
  assert (Hd3 : day d <= 31).
  { unfold days_in_month in Hd2. repeat case_match; lia. }
  unfold strptime_Ymd, strptime_matches, isoformat.
  rewrite group_Y_four_digits by lia.
  cbn [flat_map app expect]. change (N.eqb 45 45) with true. cbn [flat_map].
  rewrite !app_nil_r.
  rewrite (month_stage
             (fun m s4 => map (fun '(dd, s5) => (mkDate (year d) m dd, s5))
                              (group_d s4))) by lia.
  destruct (day_stage (day d) ltac:(lia)) as [more ->].
  cbn [map year month day]. rewrite Hvalid. now destruct d.
Qed.

Lemma match_birth_isoformat (d : date) :
  0 <= year d <= 9999 -> 0 <= month d <= 99 -> 0 <= day d <= 99 ->
  re_match birth_pattern (isoformat d) = true.
Proof.
  intros Hy Hm Hd.
  assert (Hrun : forall (pre t : str) (n k : nat),
             length pre = n -> forallb is_decimal pre = true ->
             In t (ends (digits n) k (pre ++ t))).
  { intros pre t n k Hlen Hall. unfold digits. cbn [ends].
    change (in_set CDigit) with is_decimal. rewrite rep_ends_exact.
    rewrite length_app, <- Hlen, firstn_app, firstn_all, Nat.sub_diag.
    cbn [firstn]. rewrite app_nil_r, Hall, skipn_app, skipn_all,
      Nat.sub_diag.
    destruct (Nat.leb_spec (length pre) (length pre + length t)); [|lia].
    now left. }
  assert (H4 : forallb is_decimal (four_digits (year d)) = true).
  { unfold four_digits. cbn [forallb].
    rewrite !is_decimal_digit by (Z.div_mod_to_equations; lia).
    reflexivity. }
  assert (H2 : forall n, 0 <= n <= 99 ->
             forallb is_decimal (two_digits n) = true).
  { intros n Hn. unfold two_digits. cbn [forallb].
    rewrite !is_decimal_digit by (Z.div_mod_to_equations; lia).
    reflexivity. }
  apply re_match_iff. exists []. unfold birth_pattern, isoformat.
  apply in_ends_seq. eexists. split; [apply in_ends_bol; split; reflexivity|].
  apply in_ends_seq. eexists. split; [apply Hrun; [reflexivity | exact H4]|].
  apply in_ends_seq. eexists. split; [apply in_ends_lit; reflexivity|].
  apply in_ends_seq. eexists. split;
    [apply Hrun; [reflexivity | exact (H2 _ Hm)]|].
  apply in_ends_seq. eexists. split; [apply in_ends_lit; reflexivity|].
  apply in_ends_seq. exists []. split.
  - pose proof (Hrun (two_digits (day d)) [] 2%nat
                  (length (isoformat d)) eq_refl (H2 _ Hd)) as Hlast.
    rewrite app_nil_r in Hlast. exact Hlast.
  - apply in_ends_eol. split; [reflexivity | now left].
Qed.

End RoundTrip.

Lemma under_age_iff (t b : date) :
  (age_on t b <? 18) = true <-> later_than b (years_before 18 t).
Proof.
  unfold later_than, years_before, age_on, pair_lt. cbn [year month day].
  rewrite Z.ltb_lt.
  destruct (Z.ltb_spec (month t) (month b));
    destruct (Z.eqb_spec (month t) (month b));
    destruct (Z.ltb_spec (day t) (day b)); cbn [orb andb]; lia.
Qed.

(** A calendar date from 0001-01-01 to 9999-12-31 written as YYYY-MM-DD
    with ASCII digits is read back by [strptime] as the same date and passes
    the pattern of [validate_format]: no well-formed birth date is turned
    away for its form.  A JSON-object body with such a birth date that
    passes the seven other checks goes to the provider when the date is not
    after the day 18 years before today, and is answered 400 "Must be at
    least 18 years old" when it is. *)
Theorem well_formed_birth_date `{U : UnicodeDB} (E : env) (addr : str)
    (kv : list (str * json)) (w : world) (d : date) :
  ascii_compatible U ->
  valid_date (year d) (month d) (day d) = true ->
  dict_get kv (lit "birth_date") = Some (JStr (isoformat d)) ->
  first_failure [check_presence; check_email; check_phone] kv = Pass ->
  first_failure [check_postal; check_ssn] kv = Pass ->
  first_failure [check_state; check_country] kv = Pass ->
  strptime_Ymd (isoformat d) = Some d /\
  re_match birth_pattern (isoformat d) = true /\
  (~ later_than d (years_before 18 (today E)) ->
   submit_app E (mkRequest addr (Parsed (JObj kv))) w =
   (relay E (JObj kv), mkWorld (sent w ++ [JObj kv]))) /\
  (later_than d (years_before 18 (today E)) ->
   submit_app E (mkRequest addr (Parsed (JObj kv))) w =
   (error 400 (lit "Must be at least 18 years old"), w)).
Proof.
  intros HU Hvalid Hfield H1 H2 H3.
  pose proof (strptime_isoformat HU d Hvalid) as Hparse.
  assert (Hpat : re_match birth_pattern (isoformat d) = true).
  { unfold valid_date in Hvalid.
    rewrite !andb_true_iff, !Z.leb_le in Hvalid.
    destruct Hvalid as (((((Hy1 & Hy2) & Hm1) & Hm2) & Hd1) & Hd2).
    assert (day d <= 31)
      by (unfold days_in_month in Hd2; repeat case_match; lia).
    apply (match_birth_isoformat HU); lia. }
  split; [exact Hparse|]. split; [exact Hpat|].
  assert (Hall : first_failure (object_checks (today E)) kv =
                 if age_on (today E) d <? 18
                 then Reject (lit "Must be at least 18 years old")
                 else Pass).
  { change (object_checks (today E)) with
      ([check_presence; check_email; check_phone] ++
       [check_birth (today E)] ++ [check_postal; check_ssn] ++
       [check_birth_format] ++ [check_state; check_country]).
    rewrite !first_failure_app, H1, H2, H3. cbn [first_failure].
    unfold check_birth, check_birth_format, check_pattern.
    rewrite Hfield, Hparse, Hpat.
    destruct (age_on (today E) d <? 18); reflexivity. }
  rewrite submit_app_obj, Hall.
  destruct (age_on (today E) d <? 18) eqn:Hage; split; intros Hl;
    try reflexivity.
  - apply under_age_iff in Hage. contradiction.
  - apply under_age_iff in Hl. congruence.
Qed.

Lemma well_formed_birth_date_witness :
  strptime_Ymd (isoformat (mkDate 1990 1 1)) = Some (mkDate 1990 1 1) /\
  re_match birth_pattern (isoformat (mkDate 1990 1 1)) = true /\
  (~ later_than (mkDate 1990 1 1)
       (years_before 18 (today (provider_does (Answer 201 (Some approved)))))
   ->
   submit_app (provider_does (Answer 201 (Some approved)))
              (mkRequest client (Parsed (JObj (bindings good_applicant))))
              quiet =
   (relay (provider_does (Answer 201 (Some approved)))
          (JObj (bindings good_applicant)),
    mkWorld (sent quiet ++ [JObj (bindings good_applicant)]))) /\
  (later_than (mkDate 1990 1 1)
     (years_before 18 (today (provider_does (Answer 201 (Some approved)))))
   ->
   submit_app (provider_does (Answer 201 (Some approved)))
              (mkRequest client (Parsed (JObj (bindings good_applicant))))
              quiet =
   (error 400 (lit "Must be at least 18 years old"), quiet)).
Proof.
  apply (well_formed_birth_date (U:=cpython_ucd)
           (provider_does (Answer 201 (Some approved))) client
           (bindings good_applicant) quiet (mkDate 1990 1 1)
           cpython_ucd_ascii);
    vm_compute; reflexivity.
Defined.
